(** * HTTPU client ([httpu.go]): a shallow embedding of [HTTPUClient.Do]

    [Do] builds an HTTP/1.1 request, sends it as one UDP datagram per
    multicast-capable interface and per round, then reads datagrams until
    the socket's deadline fires.  Everything [Do] does to the outside world
    is a call to the operating system or to the Go library; the embedding
    threads a connection state through those calls, takes their results
    from an environment of oracles, and records every call in a trace.

    [Do] holds [connLock] from its first statement to its return, so one
    call runs at a time on a client; the embedding follows one call, on a
    socket as [NewHTTPUClient] leaves it. *)

From Stdlib Require Import ZArith List String Ascii Bool Lia DecimalString.
Import ListNotations.

Open Scope Z_scope.
Open Scope list_scope.

(** ** Data model *)

(** Go's [error] values.  [conn.ReadFrom] hands out [net.Error]s, which
    answer [Timeout()] and [Temporary()]; any other error is plain. *)
Inductive error : Type :=
| NetError (msg : string) (timeout temporary : bool)
| PlainError (msg : string).

Definition Error_ (e : error) : string :=
  match e with
  | NetError msg _ _ => msg
  | PlainError msg => msg
  end.

(** [net.Interface], with [Flags] the unsigned bit set of [net.Flags]. *)
Record Interface : Type := mkInterface {
  Index : Z;
  Name : string;
  Flags : Z
}.

(** [net.FlagMulticast]: the fifth flag of [net.Flags] ([1 << iota]). *)
Definition FlagMulticast : Z := Z.shiftl 1 4.

Record UDPAddr : Type := mkUDPAddr {
  IP : string;
  Port : Z
}.

(** [http.Header], a map from a name to its values, listed in the order in
    which [Header.Write] emits the names. *)
Definition http_Header : Type := list (string * list string).

(** The fields of [http.Request] that [Do] reads; [RequestURI] stands for
    the value of [req.URL.RequestURI()]. *)
Record Request : Type := mkRequest {
  Method : string;
  RequestURI : string;
  Host : string;
  Header : http_Header
}.

Record Response : Type := mkResponse {
  Status : string;
  StatusCode : Z;
  Proto : string;
  RespHeader : http_Header;
  Body : string
}.

(** [time.Duration] counts nanoseconds. *)
Definition Millisecond : Z := 1000000.

Definition CR : ascii := ascii_of_nat 13.
Definition LF : ascii := ascii_of_nat 10.
Definition CRLF : string := String CR (String LF EmptyString).

Definition len (b : string) : Z := Z.of_nat (String.length b).

(** [%d] of [fmt]. *)
Definition itoa (z : Z) : string := NilZero.string_of_int (Z.to_int z).

(** [fmt.Errorf("httpu: wrote %d bytes rather than full %d in request", n, l)]. *)
Definition Errorf_short_write (n l : Z) : error :=
  PlainError ("httpu: wrote " ++ itoa n ++ " bytes rather than full "
              ++ itoa l ++ " in request")%string.

(** ** The request buffer *)

(** [bytes.Buffer]: a write appends and reports the bytes written; its
    error is always nil. *)
Definition Buffer : Type := string.

Definition Buffer_Write (buf : Buffer) (p : string) : Buffer * Z * option error :=
  (buf ++ p, len p, None)%string.

(** [fmt.Fprintf(&buf, "%s %s HTTP/1.1\r\n", method, uri)]. *)
Definition Fprintf_request_line (buf : Buffer) (method uri : string)
  : Buffer * Z * option error :=
  Buffer_Write buf (method ++ " " ++ uri ++ " HTTP/1.1" ++ CRLF)%string.

Definition header_line (name value : string) : string :=
  (name ++ ": " ++ value ++ CRLF)%string.

(** The (name, value) entries of a header, a name with several values
    giving one entry per value, in order. *)
Definition header_entries (h : http_Header) : list (string * string) :=
  flat_map (fun kv => map (fun v => (fst kv, v)) (snd kv)) h.

(** Modelled from the spec: [http.Header.Write] belongs to Go's [net/http],
    not to this repository.  "Header serialization must use the standard
    per-line [Name: value\r\n] convention for every entry, preserving the
    multi-value-per-name contract of the header container." *)
Fixpoint Header_Write_values (buf : Buffer) (name : string) (vs : list string)
  : Buffer :=
  match vs with
  | [] => buf
  | v :: vs' =>
      let '(buf', _, _) := Buffer_Write buf (header_line name v) in
      Header_Write_values buf' name vs'
  end.

(** [h.Write(&buf)], one name after the other; like any write to a
    [bytes.Buffer] it returns a nil error. *)
Fixpoint Header_Write (h : http_Header) (buf : Buffer) : Buffer * option error :=
  match h with
  | [] => (buf, None)
  | (name, vs) :: h' => Header_Write h' (Header_Write_values buf name vs)
  end.

(** Lines 54-67 of [Do]: the request is built in [requestBuf]; each of the
    three writes can end the call with its error. *)
Definition build_request (req : Request) : Buffer * option error :=
  let requestBuf : Buffer := EmptyString in
  let method := Method req in
  let method := if String.eqb method "" then "GET"%string else method in
  let '(requestBuf, _, err) :=
    Fprintf_request_line requestBuf method (RequestURI req) in
  match err with
  | Some _ => (requestBuf, err)
  | None =>
      let '(requestBuf, err) := Header_Write (Header req) requestBuf in
      match err with
      | Some _ => (requestBuf, err)
      | None =>
          let '(requestBuf, _, err) := Buffer_Write requestBuf CRLF in
          (requestBuf, err)
      end
  end.

(** ** The outside world *)

(** What the operating system and the network answer.  The socket calls
    that [Do] repeats are indexed by how many calls of that kind came
    before. *)
Record Env : Type := mkEnv {
  ResolveUDPAddr_result : string -> error + UDPAddr;
  SetDeadline_result : option error;
  Interfaces_result : error + list Interface;
  SetMulticastInterface_result : nat -> Interface -> option error;
  WriteTo_result : nat -> string -> Z * option error;
  ReadFrom_result : nat -> error + string;
  ReadResponse_result : string -> Request -> error + Response
}.

(** The socket [httpu.conn] and the clock, as far as [Do] touches them. *)
Record Conn : Type := mkConn {
  clock : Z;
  deadline : option Z;
  multicastIf : option Interface;
  setifs : nat;
  writes : nat;
  reads : nat
}.

(** One entry per call that leaves the program, in the order of the calls.
    A write records the interface the socket sends through and what the
    call returned; a read records the deadline in force. *)
Inductive Event : Type :=
| EvResolveUDPAddr (host : string)
| EvSetDeadline (t : Z)
| EvInterfaces
| EvSetMulticastInterface (ifc : Interface)
| EvWriteTo (b : string) (dst : option UDPAddr) (via : option Interface)
            (n : Z) (err : option error)
| EvSleep (d : Z)
| EvReadFrom (dl : option Z)
| EvLogPrint (msg : string).

(** ** Control flow

    A statement completes, or [Do] returns from inside it, or the model
    runs out of fuel in the unbounded read loop. *)
Inductive outcome (A : Type) : Type :=
| Normal (a : A)
| Returned (responses : list Response) (err : option error)
| OutOfFuel.
Arguments Normal {A} a.
Arguments Returned {A} responses err.
Arguments OutOfFuel {A}.

Definition M (A : Type) : Type := Conn -> outcome A * Conn * list Event.

Definition pure {A} (a : A) : M A := fun c => (Normal a, c, []).

Definition ret {A} (responses : list Response) (err : option error) : M A :=
  fun c => (Returned responses err, c, []).

Definition bind {A B} (m : M A) (k : A -> M B) : M B :=
  fun c =>
    let '(o, c1, t1) := m c in
    match o with
    | Normal a => let '(o2, c2, t2) := k a c1 in (o2, c2, t1 ++ t2)
    | Returned rs e => (Returned rs e, c1, t1)
    | OutOfFuel => (OutOfFuel, c1, t1)
    end.

Declare Scope go_scope.
Delimit Scope go_scope with go.
Notation "x <- m ;; k" := (bind m (fun x => k))
  (at level 61, m at next level, right associativity) : go_scope.
Notation "' p <- m ;; k" := (bind m (fun p => k))
  (at level 61, p pattern, m at next level, right associativity) : go_scope.
Notation "m ;; k" := (bind m (fun _ => k))
  (at level 61, right associativity) : go_scope.

Definition is_err (err : option error) : bool :=
  match err with Some _ => true | None => false end.

(** ** The calls *)

Section Calls.
Variable env : Env.

Definition net_ResolveUDPAddr (host : string) : M (option UDPAddr * option error) :=
  fun c =>
    (Normal match ResolveUDPAddr_result env host with
            | inl e => (None, Some e)
            | inr a => (Some a, None)
            end, c, [EvResolveUDPAddr host]).

Definition time_Now : M Z := fun c => (Normal (clock c), c, []).

Definition conn_SetDeadline (t : Z) : M (option error) :=
  fun c =>
    match SetDeadline_result env with
    | Some e => (Normal (Some e), c, [EvSetDeadline t])
    | None =>
        (Normal None,
         mkConn (clock c) (Some t) (multicastIf c) (setifs c) (writes c) (reads c),
         [EvSetDeadline t])
    end.

Definition net_Interfaces : M (list Interface * option error) :=
  fun c =>
    (Normal match Interfaces_result env with
            | inl e => ([], Some e)
            | inr ifs => (ifs, None)
            end, c, [EvInterfaces]).

Definition conn_SetMulticastInterface (ifc : Interface) : M (option error) :=
  fun c =>
    let r := SetMulticastInterface_result env (setifs c) ifc in
    (Normal r,
     mkConn (clock c) (deadline c)
            (if is_err r then multicastIf c else Some ifc)
            (S (setifs c)) (writes c) (reads c),
     [EvSetMulticastInterface ifc]).

Definition conn_WriteTo (b : string) (dst : option UDPAddr) : M (Z * option error) :=
  fun c =>
    let r := WriteTo_result env (writes c) b in
    (Normal r,
     mkConn (clock c) (deadline c) (multicastIf c) (setifs c) (S (writes c)) (reads c),
     [EvWriteTo b dst (multicastIf c) (fst r) (snd r)]).

Definition time_Sleep (d : Z) : M unit :=
  fun c =>
    (Normal tt,
     mkConn (clock c + d) (deadline c) (multicastIf c) (setifs c) (writes c) (reads c),
     [EvSleep d]).

(** [conn.ReadFrom(responseBytes)] fills a buffer of [size] bytes: a
    longer datagram is cut.  The call yields [responseBytes[:n]]. *)
Definition conn_ReadFrom (size : nat) : M (string * option error) :=
  fun c =>
    (Normal match ReadFrom_result env (reads c) with
            | inl e => (EmptyString, Some e)
            | inr dgram => (substring 0 size dgram, None)
            end,
     mkConn (clock c) (deadline c) (multicastIf c) (setifs c) (writes c) (S (reads c)),
     [EvReadFrom (deadline c)]).

Definition http_ReadResponse (b : string) (req : Request)
  : M (error + Response) :=
  fun c => (Normal (ReadResponse_result env b req), c, []).

(** [log.Print] writes its operands one after the other; a string operand
    takes no space next to it. *)
Definition log_Print (s : string) (e : error) : M unit :=
  fun c => (Normal tt, c, [EvLogPrint (s ++ Error_ e)%string]).

(** ** [Do] *)

(** Lines 86-103: one round over the interfaces. *)
Fixpoint send_round (requestBuf : Buffer) (destAddr : option UDPAddr)
         (ifs : list Interface) : M unit :=
  match ifs with
  | [] => pure tt
  | ifc :: rest =>
      if Z.land (Flags ifc) FlagMulticast =? 0 then
        send_round requestBuf destAddr rest
      else
        (err <- conn_SetMulticastInterface ifc ;;
         if is_err err then ret [] err else
         '(n, err) <- conn_WriteTo requestBuf destAddr ;;
         if is_err err then ret [] err
         else if n <? len requestBuf then
           ret [] (Some (Errorf_short_write n (len requestBuf)))
         else send_round requestBuf destAddr rest)%go
  end.

(** Lines 83-105: [i] runs from 0 while [i < numSends], so the body runs
    [Z.to_nat numSends] times; [rounds] counts the iterations left. *)
Fixpoint send_rounds (rounds : nat) (requestBuf : Buffer)
         (destAddr : option UDPAddr)
         (ifs : list Interface) : M unit :=
  match rounds with
  | O => pure tt
  | S rounds' =>
      (send_round requestBuf destAddr ifs ;;
       time_Sleep (5 * Millisecond) ;;
       send_rounds rounds' requestBuf destAddr ifs)%go
  end.

(** Lines 110-135: the read loop; [break] completes it with the
    responses gathered. *)
Fixpoint collect (fuel : nat) (req : Request) (responses : list Response)
  : M (list Response) :=
  match fuel with
  | O => fun c => (OutOfFuel, c, [])
  | S fuel' =>
      ('(responseBytes, err) <- conn_ReadFrom 2048 ;;
       match err with
       | Some e =>
           match e with
           | NetError _ timeout temporary =>
               if timeout then pure responses
               else if temporary then
                 time_Sleep (10 * Millisecond) ;;
                 collect fuel' req responses
               else ret [] err
           | PlainError _ => ret [] err
           end
       | None =>
           parsed <- http_ReadResponse responseBytes req ;;
           match parsed with
           | inl err =>
               log_Print "httpu: error while parsing response: %v" err ;;
               collect fuel' req responses
           | inr response => collect fuel' req (responses ++ [response])
           end
       end)%go
  end.

(** Lines 54-105: build the request, resolve the destination, set the
    deadline, list the interfaces, send.  The statement completes with
    the value of the function's variable [err], which line 136 reads. *)
Definition request_and_send (req : Request) (timeout : Z) (numSends : Z)
  : M (option error) :=
  (let '(requestBuf, err) := build_request req in
   if is_err err then ret [] err else
   '(destAddr, err) <- net_ResolveUDPAddr (Host req) ;;
   if is_err err then ret [] err else
   now <- time_Now ;;
   err <- conn_SetDeadline (now + timeout) ;;
   if is_err err then ret [] err else
   '(ifs, err) <- net_Interfaces ;;
   if is_err err then ret [] err else
   send_rounds (Z.to_nat numSends) requestBuf destAddr ifs ;;
   pure err)%go.

(** Lines 47-137.  The [err] of the read loop is declared inside the
    loop body; the one returned at the end is the function's. *)
Definition Do (req : Request) (timeout : Z) (numSends : Z) (fuel : nat)
  : M unit :=
  (err <- request_and_send req timeout numSends ;;
   responses <- collect fuel req [] ;;
   ret responses err)%go.

End Calls.

(** The socket at the start of a call, at time [now]: no deadline, no
    multicast interface chosen, no call made. *)
Definition conn0 (now : Z) : Conn := mkConn now None None 0 0 0.

(** ** Reading a trace *)

Definition is_write (ev : Event) : bool :=
  match ev with EvWriteTo _ _ _ _ _ => true | _ => false end.

Definition is_read (ev : Event) : bool :=
  match ev with EvReadFrom _ => true | _ => false end.

Definition is_set_deadline (ev : Event) : bool :=
  match ev with EvSetDeadline _ => true | _ => false end.

Definition is_sleep (d : Z) (ev : Event) : bool :=
  match ev with EvSleep d' => d' =? d | _ => false end.

(** A send attempt that did not put the whole message on the wire. *)
Definition failed_write (ev : Event) : bool :=
  match ev with
  | EvWriteTo b _ _ n err => is_err err || (n <? len b)
  | _ => false
  end.

(** The error [Do] returns on a failed send attempt. *)
Definition write_error (ev : Event) : option error :=
  match ev with
  | EvWriteTo b _ _ n err =>
      if is_err err then err else Some (Errorf_short_write n (len b))
  | _ => None
  end.

(** The calls of one round over the interfaces. *)
Definition send_event (ev : Event) : bool :=
  match ev with
  | EvSetMulticastInterface _ | EvWriteTo _ _ _ _ _ => true
  | _ => false
  end.

Definition multicast (ifc : Interface) : bool :=
  negb (Z.land (Flags ifc) FlagMulticast =? 0).

(** The send attempts of a trace: the interface sent through and the
    payload. *)
Definition sends (tr : list Event) : list (option Interface * string) :=
  flat_map (fun ev => match ev with
                      | EvWriteTo b _ via _ _ => [(via, b)]
                      | _ => []
                      end) tr.

(** One call of [Do], from the socket [conn0 now]. *)
Definition run (env : Env) (now : Z) (req : Request) (timeout numSends : Z)
           (fuel : nat) : outcome unit * Conn * list Event :=
  Do env req timeout numSends fuel (conn0 now).

Definition result {A} (r : outcome A * Conn * list Event) : outcome A :=
  fst (fst r).

Definition trace {A} (r : outcome A * Conn * list Event) : list Event :=
  snd r.

(** ** Sample worlds *)

Definition eth0 : Interface := mkInterface 2 "eth0" 19.
Definition tun0 : Interface := mkInterface 3 "tun0" 9.
Definition lo : Interface := mkInterface 1 "lo" 5.

Definition ssdp_addr : UDPAddr := mkUDPAddr "239.255.255.250" 1900.

Definition msearch : Request :=
  mkRequest "M-SEARCH" "*" "239.255.255.250:1900"
            [("MAN", ["ssdp:discover"])]%string.

Definition i_o_timeout : error := NetError "i/o timeout" true true.
Definition conn_refused : error := NetError "connection refused" false false.
Definition interrupted : error := NetError "interrupted system call" false true.

Definition ok_response : Response :=
  mkResponse "200 OK" 200 "HTTP/1.1" [] "".

(** A datagram parses when it starts with [H]. *)
Definition parse_H (b : string) (_ : Request) : error + Response :=
  match b with
  | String "H" _ => inr ok_response
  | _ => inl (PlainError "malformed HTTP response")
  end.

(** Every call succeeds; the datagrams of [dgrams] arrive, then the
    deadline fires. *)
Definition quiet_env (ifs : list Interface) (dgrams : list (error + string)) : Env :=
  mkEnv (fun _ => inr ssdp_addr) None (inr ifs)
        (fun _ _ => None)
        (fun _ b => (len b, None))
        (fun i => nth i dgrams (inl i_o_timeout))
        parse_H.

(** No host resolves. *)
Definition no_route_env : Env :=
  mkEnv (fun _ => inl (PlainError "no such host")) None (inr [eth0])
        (fun _ _ => None) (fun _ b => (len b, None))
        (fun _ => inl i_o_timeout) parse_H.

(** Datagrams: a response, junk, a response; then the deadline. *)
Definition junk_env : Env :=
  quiet_env [eth0] [inr "HTTP/1.1 200 OK"; inr "junk"; inr "HTTP/1.1 200 OK"]%string.

(** A response, an interrupted read, a response, then a refused read. *)
Definition refused_env : Env :=
  quiet_env [eth0]
            [inr "HTTP/1.1 200 OK"; inl interrupted; inr "HTTP/1.1 200 OK";
             inl conn_refused]%string.

(** The second write puts 10 bytes of the message on the wire. *)
Definition short_write_env : Env :=
  mkEnv (fun _ => inr ssdp_addr) None (inr [eth0; lo])
        (fun _ _ => None)
        (fun i b => match i with 1%nat => (10, None) | _ => (len b, None) end)
        (fun _ => inr "HTTP/1.1 200 OK"%string) parse_H.

(** ** The wire format, as the specification words it *)

(** The strings of [ls] one after the other. *)
Definition join (ls : list string) : string :=
  fold_right String.append EmptyString ls.

(** ["<METHOD> <TARGET> HTTP/1.1\r\n"], one ["Name: value\r\n"] per header
    entry, then ["\r\n"]; an empty method reads [GET]. *)
Definition wire_message (m t : string) (h : http_Header) : string :=
  ((if String.eqb m "" then "GET" else m) ++ " " ++ t ++ " HTTP/1.1" ++ CRLF
   ++ join (map (fun nv => fst nv ++ ": " ++ snd nv ++ CRLF) (header_entries h))
   ++ CRLF)%string.

(** ** The vocabulary of the statements *)

(** What one send attempt through [ifc] looks like in a trace. *)
Definition sent_through (buf : Buffer) (ifs : list Interface)
           (s : option Interface * string) : Prop :=
  snd s = buf /\
  exists ifc, fst s = Some ifc /\ In ifc ifs /\ multicast ifc = true.

(** A run that stopped at a failed send attempt: the attempt is the last
    call of the trace and [Do] returns its error with no responses. *)
Definition aborted_on_write {A} (o : outcome A) (tr : list Event) : Prop :=
  exists pre W,
    tr = pre ++ [W] /\ existsb failed_write pre = false /\
    failed_write W = true /\ o = Returned [] (write_error W) /\
    is_err (write_error W) = true.

(** What holds of any run of one round. *)
Definition send_inv (buf : Buffer) (ifs : list Interface) (c : Conn)
           (r : outcome unit * Conn * list Event) : Prop :=
  let '(o, c', tr) := r in
  deadline c' = deadline c /\ reads c' = reads c /\ clock c' = clock c /\
  forallb send_event tr = true /\
  Forall (sent_through buf ifs) (sends tr) /\
  match o with
  | Normal _ =>
      existsb failed_write tr = false /\
      sends tr = map (fun ifc => (Some ifc, buf)) (filter multicast ifs)
  | Returned rs e =>
      rs = [] /\ is_err e = true /\
      (existsb failed_write tr = false \/ aborted_on_write o tr)
  | OutOfFuel => False
  end.

(** The pause that ends a round. *)
Definition pause : Event := EvSleep (5 * Millisecond).

(** The calls of the send phase. *)
Definition sending_event (ev : Event) : bool :=
  send_event ev || is_sleep (5 * Millisecond) ev.

(** [k] rounds, each one a full pass over the multicast-capable
    interfaces followed by the pause. *)
Fixpoint paused_rounds (buf : Buffer) (ifs : list Interface) (k : nat)
         (tr : list Event)
  : Prop :=
  match k with
  | O => tr = []
  | S k' =>
      exists round rest,
        tr = round ++ pause :: rest /\
        forallb send_event round = true /\
        sends round = map (fun ifc => (Some ifc, buf)) (filter multicast ifs) /\
        paused_rounds buf ifs k' rest
  end.

(** What holds of any run of the rounds. *)
Definition rounds_inv (buf : Buffer) (k : nat) (ifs : list Interface) (c : Conn)
           (r : outcome unit * Conn * list Event) : Prop :=
  let '(o, c', tr) := r in
  deadline c' = deadline c /\ reads c' = reads c /\
  forallb sending_event tr = true /\
  Forall (sent_through buf ifs) (sends tr) /\
  match o with
  | Normal _ => existsb failed_write tr = false /\ paused_rounds buf ifs k tr
  | Returned rs e =>
      rs = [] /\ is_err e = true /\
      (existsb failed_write tr = false \/ aborted_on_write o tr)
  | OutOfFuel => False
  end.

(** The socket after a successful [SetDeadline(t)]. *)
Definition set_deadline (c : Conn) (t : Z) : Conn :=
  mkConn (clock c) (Some t) (multicastIf c) (setifs c) (writes c) (reads c).

(** The calls before the first round. *)
Definition setup_events (req : Request) (t : Z) : list Event :=
  [EvResolveUDPAddr (Host req); EvSetDeadline t; EvInterfaces].

(** The datagram of a request. *)
Definition payload (req : Request) : string :=
  wire_message (Method req) (RequestURI req) (Header req).

(** Reads that leave the loop running: a datagram, or a temporary error
    that is not a timeout. *)
Definition survives (r : error + string) : bool :=
  match r with
  | inr _ => true
  | inl (NetError _ false true) => true
  | inl _ => false
  end.

(** The responses that a sequence of reads adds to the result. *)
Definition gathered (env : Env) (req : Request) (rs : list (error + string))
  : list Response :=
  flat_map (fun r =>
              match r with
              | inr dgram =>
                  match ReadResponse_result env (substring 0 2048 dgram) req with
                  | inr response => [response]
                  | inl _ => []
                  end
              | inl _ => []
              end) rs.

(** The calls one read gives rise to, under deadline [dl]. *)
Definition read_events (env : Env) (req : Request) (dl : option Z)
           (r : error + string) : list Event :=
  EvReadFrom dl ::
  match r with
  | inl (NetError _ false true) => [EvSleep (10 * Millisecond)]
  | inl _ => []
  | inr dgram =>
      match ReadResponse_result env (substring 0 2048 dgram) req with
      | inl e =>
          [EvLogPrint ("httpu: error while parsing response: %v" ++ Error_ e)%string]
      | inr _ => []
      end
  end.

(** The results of reads number [from], ..., [from + n - 1]. *)
Definition reads_from (env : Env) (from n : nat) : list (error + string) :=
  map (ReadFrom_result env) (seq from n).

(** How the loop ends on a read that does not survive. *)
Definition loop_end (acc : list Response) (r : error + string)
  : outcome (list Response) :=
  match r with
  | inl (NetError _ true _) => Normal acc
  | inl e => Returned [] (Some e)
  | inr _ => OutOfFuel
  end.

(** The calls of the read loop, under deadline [dl]. *)
Definition collect_event (dl : option Z) (ev : Event) : Prop :=
  match ev with
  | EvReadFrom dl' => dl' = dl
  | EvSleep d => d = 10 * Millisecond
  | EvLogPrint _ => True
  | _ => False
  end.

(** The statements of [Do] before the read loop run to their end: no
    setup call and no send attempt fails. *)
Definition sending_completes (env : Env) (now : Z) (req : Request)
           (timeout numSends : Z) : bool :=
  match result (request_and_send env req timeout numSends (conn0 now)) with
  | Normal _ => true
  | _ => false
  end.

(** What [Do] returns when its read loop ends in [o]. *)
Definition finish (o : outcome (list Response)) : outcome unit :=
  match o with
  | Normal responses => Returned responses None
  | Returned rs e => Returned rs e
  | OutOfFuel => OutOfFuel
  end.

(** ** Further vocabulary: the phases of any run *)

(** The calls before the first round. *)
Definition setup_event (ev : Event) : bool :=
  match ev with
  | EvResolveUDPAddr _ | EvSetDeadline _ | EvInterfaces => true
  | _ => false
  end.

(** The selections of an interface and the writes of a send phase, in the
    order they are made: every write comes right after the selection of
    the interface it goes through, carries [buf] and goes to [dst]; a
    selection with no write after it is the last of them, and only a
    send phase that gave up ([lone]) has one. *)
Fixpoint select_write_pairs (buf : Buffer) (dst : option UDPAddr) (lone : bool)
         (tr : list Event) : Prop :=
  match tr with
  | [] => True
  | EvSetMulticastInterface ifc :: rest =>
      multicast ifc = true /\
      match rest with
      | [] => lone = true
      | EvWriteTo b d via _ _ :: tr' =>
          b = buf /\ d = dst /\ via = Some ifc /\
          select_write_pairs buf dst lone tr'
      | _ => False
      end
  | _ => False
  end.

(** Whether a statement gave up: [Do] returned from inside it. *)
Definition gave_up {A} (o : outcome A) : bool :=
  match o with Normal _ => false | _ => true end.

(** The time a trace spends in [time.Sleep]. *)
Definition slept (tr : list Event) : Z :=
  fold_right (fun ev acc => match ev with EvSleep d => d + acc | _ => acc end)
             0 tr.

(** Reads that fail with a temporary error that is no timeout. *)
Definition temporary_error (r : error + string) : bool :=
  match r with
  | inl (NetError _ false true) => true
  | _ => false
  end.

(** What [conn.ReadFrom] makes of a read in a buffer of [size] bytes. *)
Definition cut (size : nat) (r : error + string) : error + string :=
  match r with
  | inl e => inl e
  | inr dgram => inr (substring 0 size dgram)
  end.

(** The world [env] with other datagrams arriving. *)
Definition with_reads (env : Env) (f : nat -> error + string) : Env :=
  mkEnv (ResolveUDPAddr_result env) (SetDeadline_result env)
        (Interfaces_result env) (SetMulticastInterface_result env)
        (WriteTo_result env) f (ReadResponse_result env).

(** A parser that keeps the datagram as the status of the response. *)
Definition parse_echo (b : string) (_ : Request) : error + Response :=
  inr (mkResponse b 200 "HTTP/1.1" [] "").

(** Every call succeeds and every datagram parses. *)
Definition echo_env (ifs : list Interface) (dgrams : list (error + string)) : Env :=
  mkEnv (fun _ => inr ssdp_addr) None (inr ifs)
        (fun _ _ => None)
        (fun _ b => (len b, None))
        (fun i => nth i dgrams (inl i_o_timeout))
        parse_echo.

(** The socket refuses its deadline. *)
Definition no_deadline_env : Env :=
  mkEnv (fun _ => inr ssdp_addr) (Some (PlainError "use of closed network connection"))
        (inr [eth0]) (fun _ _ => None) (fun _ b => (len b, None))
        (fun _ => inl i_o_timeout) parse_H.

(** The interfaces cannot be listed. *)
Definition no_interfaces_env : Env :=
  mkEnv (fun _ => inr ssdp_addr) None (inl (PlainError "route ip+net: netlink"))
        (fun _ _ => None) (fun _ b => (len b, None))
        (fun _ => inl i_o_timeout) parse_H.

(** No interface can be selected for multicast. *)
Definition no_select_env : Env :=
  mkEnv (fun _ => inr ssdp_addr) None (inr [lo; eth0])
        (fun _ _ => Some (PlainError "setsockopt: no such device"))
        (fun _ b => (len b, None))
        (fun _ => inl i_o_timeout) parse_H.

(** A socket an earlier call has used: a stale deadline, an interface
    selected, calls made. *)
Definition used_conn : Conn := mkConn 5000 (Some 900) (Some lo) 4 4 7.

(** A string of [n] times the character [a]. *)
Fixpoint fill (a : ascii) (n : nat) : string :=
  match n with
  | O => EmptyString
  | S n' => String a (fill a n')
  end.

(** One datagram of 2048 bytes and [tail] arrives, then the deadline
    fires. *)
Definition long_dgram (tail : string) (i : nat) : error + string :=
  match i with
  | O => inr (fill "H" 2048 ++ tail)%string
  | S _ => inl i_o_timeout
  end.

(** Every read is interrupted. *)
Definition busy_env : Env :=
  mkEnv (fun _ => inr ssdp_addr) None (inr [eth0])
        (fun _ _ => None) (fun _ b => (len b, None))
        (fun _ => inl interrupted) parse_H.


(** ** Strings *)

Lemma append_assoc (a b c : string) :
  ((a ++ b) ++ c = a ++ (b ++ c))%string.
Proof.
  induction a as [|x a IH]; cbn; [reflexivity | now rewrite IH].
Qed.

Lemma append_empty_r (a : string) : (a ++ "" = a)%string.
Proof.
  induction a as [|x a IH]; cbn; [reflexivity | now rewrite IH].
Qed.

Lemma join_app (l1 l2 : list string) :
  join (l1 ++ l2) = (join l1 ++ join l2)%string.
Proof.
  unfold join; induction l1 as [|x l1 IH]; cbn; [reflexivity|].
  now rewrite IH, append_assoc.
Qed.

(** ** The request encoder *)

Lemma Header_Write_values_eq (name : string) (vs : list string) (buf : Buffer) :
  Header_Write_values buf name vs
  = (buf ++ join (map (header_line name) vs))%string.
Proof.
  revert buf; induction vs as [|v vs IH]; intros buf.
  - cbn. now rewrite append_empty_r.
  - cbn [Header_Write_values Buffer_Write map]. rewrite IH.
    change (join (header_line name v :: map (header_line name) vs))
      with (header_line name v ++ join (map (header_line name) vs))%string.
    now rewrite append_assoc.
Qed.

Lemma Header_Write_eq (h : http_Header) (buf : Buffer) :
  Header_Write h buf
  = ((buf ++ join (map (fun nv => header_line (fst nv) (snd nv))
                       (header_entries h)))%string, None).
Proof.
  revert buf; induction h as [|[name vs] h IH]; intros buf.
  - cbn. now rewrite append_empty_r.
  - cbn [Header_Write]. rewrite IH, Header_Write_values_eq, append_assoc.
    change (header_entries ((name, vs) :: h))
      with (map (fun v => (name, v)) vs ++ header_entries h).
    rewrite map_app, join_app, map_map. reflexivity.
Qed.

Lemma build_request_eq (req : Request) :
  build_request req
  = (wire_message (Method req) (RequestURI req) (Header req), None).
Proof.
  unfold build_request, Fprintf_request_line, Buffer_Write.
  cbn -[String.eqb String.append Header_Write].
  rewrite Header_Write_eq.
  unfold wire_message, header_line.
  now rewrite !append_assoc.
Qed.

(** ** The send phase *)

Section SendPhase.
Variable env : Env.
Variables (buf : Buffer) (dst : option UDPAddr).

Lemma sent_through_cons ifc ifs s :
  sent_through buf ifs s -> sent_through buf (ifc :: ifs) s.
Proof.
  intros [Hb (i & Hv & Hin & Hm)]. split; [exact Hb|].
  exists i. repeat split; [exact Hv | now right | exact Hm].
Qed.

Lemma send_round_inv :
  forall ifs c, send_inv buf ifs c (send_round env buf dst ifs c).
Proof.
  induction ifs as [|ifc rest IH]; intros c.
  - cbn. repeat split; auto.
  - cbn [send_round].
    destruct (Z.land (Flags ifc) FlagMulticast =? 0) eqn:Hflag.
    + (* continue *)
      specialize (IH c). unfold send_inv in *.
      destruct (send_round env buf dst rest c) as [[o c'] tr].
      destruct IH as (Hd & Hr & Hc & Hev & Hs & Ho).
      repeat split; auto.
      * eapply Forall_impl; [|exact Hs]. intros; now apply sent_through_cons.
      * destruct o; auto.
        destruct Ho as [Hf Hsends]. split; [exact Hf|].
        cbn [filter]. unfold multicast at 1. now rewrite Hflag.
    + unfold bind at 1, conn_SetMulticastInterface at 1.
      destruct (SetMulticastInterface_result env (setifs c) ifc) as [e|] eqn:Hset.
      * cbn. repeat split; auto.
      * cbn [is_err]. unfold bind at 1, conn_WriteTo at 1.
        cbn [multicastIf writes clock deadline setifs reads fst snd].
        destruct (WriteTo_result env (writes c) buf) as [n err] eqn:Hw.
        cbn [fst snd].
        assert (Hthis : sent_through buf (ifc :: rest) (Some ifc, buf)).
        { split; [reflexivity|]. exists ifc. repeat split; [now left|].
          unfold multicast. now rewrite Hflag. }
        destruct err as [e|]; [|destruct (n <? len buf) eqn:Hn].
        -- cbn. repeat split; auto. right.
           exists [EvSetMulticastInterface ifc], (EvWriteTo buf dst (Some ifc) n (Some e)).
           cbn. repeat split; auto.
        -- cbn. rewrite Hn. cbn. repeat split; auto. right.
           exists [EvSetMulticastInterface ifc], (EvWriteTo buf dst (Some ifc) n None).
           cbn. rewrite Hn. repeat split; auto.
        -- cbn [is_err].
           match goal with |- context [send_round env buf dst rest ?c2] =>
             specialize (IH c2); destruct (send_round env buf dst rest c2)
               as [[o c'] tr] end.
           unfold send_inv in *. cbn [deadline reads clock] in IH.
           destruct IH as (Hd & Hr & Hc & Hev & Hs & Ho).
           cbn [app forallb send_event andb sends flat_map].
           repeat split; auto.
           ++ constructor; [exact Hthis|].
              eapply Forall_impl; [|exact Hs]. intros; now apply sent_through_cons.
           ++ destruct o as [u|rs e|]; auto.
              ** destruct Ho as [Hf Hsends]. cbn. rewrite Hn. split; [exact Hf|].
                 cbn [filter]. unfold multicast at 1. rewrite Hflag.
                 cbn [negb map]. now rewrite <- Hsends.
              ** destruct Ho as (Hrs & He & Hab). repeat split; auto.
                 destruct Hab as [Hclean | (pre & W & Htr & Hpre & HW & Ho & HeW)].
                 --- left. cbn. rewrite Hn. exact Hclean.
                 --- right.
                     exists (EvSetMulticastInterface ifc
                               :: EvWriteTo buf dst (Some ifc) n None :: pre), W.
                     subst tr. cbn. rewrite Hn. repeat split; auto.
Qed.

Lemma send_event_sending tr :
  forallb send_event tr = true -> forallb sending_event tr = true.
Proof.
  intros H. rewrite forallb_forall in *. intros ev Hin.
  unfold sending_event. now rewrite (H ev Hin).
Qed.

Lemma sends_app t1 t2 : sends (t1 ++ t2) = sends t1 ++ sends t2.
Proof. unfold sends. now rewrite flat_map_app. Qed.

Lemma aborted_after {A} (o : outcome A) t1 t2 :
  existsb failed_write t1 = false ->
  aborted_on_write o t2 -> aborted_on_write o (t1 ++ t2).
Proof.
  intros H1 (pre & W & Htr & Hpre & HW & Ho & He).
  exists (t1 ++ pre), W. subst t2.
  rewrite app_assoc, existsb_app, H1, Hpre. repeat split; auto.
Qed.

Lemma send_rounds_inv :
  forall k ifs c, rounds_inv buf k ifs c (send_rounds env k buf dst ifs c).
Proof.
  induction k as [|k IH]; intros ifs c.
  - cbn. repeat split; auto.
  - cbn [send_rounds]. unfold bind at 1.
    pose proof (send_round_inv ifs c) as Hround. unfold send_inv in Hround.
    destruct (send_round env buf dst ifs c) as [[o1 c1] t1].
    destruct Hround as (Hd1 & Hr1 & Hc1 & Hev1 & Hs1 & Ho1).
    destruct o1 as [u|rs e|]; [|cbn|contradiction].
    + destruct Ho1 as [Hf1 Hsends1].
      unfold bind at 1, time_Sleep at 1.
      match goal with |- context [send_rounds env k buf dst ifs ?c2] =>
        specialize (IH ifs c2); destruct (send_rounds env k buf dst ifs c2)
          as [[o c'] tr] end.
      unfold rounds_inv in *. cbn [deadline reads] in IH.
      destruct IH as (Hd & Hr & Hev & Hs & Ho).
      rewrite forallb_app, sends_app, (send_event_sending _ Hev1).
      cbn [app forallb sending_event send_event is_sleep orb andb].
      rewrite Z.eqb_refl, Hev. cbn [sends flat_map app].
      repeat split; try congruence.
      * apply Forall_app; split; assumption.
      * destruct o as [u'|rs e|]; auto.
        -- destruct Ho as [Hf Hshape]. split.
           ++ rewrite existsb_app, Hf1. exact Hf.
           ++ cbn [paused_rounds]. exists t1, tr. repeat split; auto.
        -- destruct Ho as (Hrs & He & Hab). repeat split; auto.
           destruct Hab as [Hclean | Hab].
           ++ left. rewrite existsb_app, Hf1. exact Hclean.
           ++ right. apply aborted_after; [exact Hf1|].
              change (EvSleep (5 * Millisecond) :: tr)
                with ([EvSleep (5 * Millisecond)] ++ tr).
              apply aborted_after; [reflexivity | exact Hab].
    + destruct Ho1 as (Hrs & He & Hab). repeat split; auto.
      now apply send_event_sending.
Qed.
End SendPhase.

(** ** [Do], phase by phase *)

Lemma request_and_send_eq env req timeout numSends c :
  request_and_send env req timeout numSends c =
  match ResolveUDPAddr_result env (Host req) with
  | inl e => (Returned [] (Some e), c, [EvResolveUDPAddr (Host req)])
  | inr a =>
      match SetDeadline_result env with
      | Some e =>
          (Returned [] (Some e), c,
           [EvResolveUDPAddr (Host req); EvSetDeadline (clock c + timeout)])
      | None =>
          let c1 := set_deadline c (clock c + timeout) in
          match Interfaces_result env with
          | inl e =>
              (Returned [] (Some e), c1, setup_events req (clock c + timeout))
          | inr ifs =>
              let '(o, c2, t) :=
                send_rounds env (Z.to_nat numSends) (payload req) (Some a) ifs c1 in
              (match o with
               | Normal _ => Normal None
               | Returned rs e => Returned rs e
               | OutOfFuel => OutOfFuel
               end, c2, setup_events req (clock c + timeout) ++ t)
          end
      end
  end.
Proof.
  unfold request_and_send. rewrite build_request_eq. cbn [is_err].
  unfold bind at 1, net_ResolveUDPAddr at 1.
  destruct (ResolveUDPAddr_result env (Host req)) as [e|a]; [reflexivity|].
  cbn [is_err]. unfold bind at 1, time_Now at 1.
  unfold bind at 1, conn_SetDeadline at 1.
  destruct (SetDeadline_result env) as [e|]; [reflexivity|].
  cbn [is_err]. unfold bind at 1, net_Interfaces at 1.
  destruct (Interfaces_result env) as [e|ifs]; [reflexivity|].
  cbn [is_err]. unfold bind at 1. fold (set_deadline c (clock c + timeout)).
  fold (payload req).
  destruct (send_rounds env (Z.to_nat numSends) (payload req) (Some a) ifs
              (set_deadline c (clock c + timeout))) as [[o c2] t].
  destruct o; cbn; [now rewrite app_nil_r | reflexivity | reflexivity].
Qed.

Lemma Do_eq env req timeout numSends fuel c :
  Do env req timeout numSends fuel c =
  let '(o, c1, t1) := request_and_send env req timeout numSends c in
  match o with
  | Normal err =>
      let '(o2, c2, t2) := collect env fuel req [] c1 in
      (match o2 with
       | Normal responses => Returned responses err
       | Returned rs e => Returned rs e
       | OutOfFuel => OutOfFuel
       end, c2, t1 ++ t2)
  | Returned rs e => (Returned rs e, c1, t1)
  | OutOfFuel => (OutOfFuel, c1, t1)
  end.
Proof.
  unfold Do. unfold bind at 1.
  destruct (request_and_send env req timeout numSends c) as [[o c1] t1].
  destruct o; try reflexivity.
  unfold bind at 1.
  destruct (collect env fuel req [] c1) as [[o2 c2] t2].
  destruct o2; cbn; [now rewrite app_nil_r | reflexivity | reflexivity].
Qed.

(** ** The read loop *)

Section ReadLoop.
Variable env : Env.
Variable req : Request.

Lemma collect_run :
  forall j fuel acc c,
    (forall i, (i < j)%nat -> survives (ReadFrom_result env (reads c + i)) = true) ->
    survives (ReadFrom_result env (reads c + j)) = false ->
    (j < fuel)%nat ->
    exists c',
      collect env fuel req acc c =
      (loop_end (acc ++ gathered env req (reads_from env (reads c) j))
                (ReadFrom_result env (reads c + j)),
       c',
       flat_map (read_events env req (deadline c)) (reads_from env (reads c) (S j)))
      /\ deadline c' = deadline c.
Proof.
  induction j as [|j IH]; intros fuel acc c Hsurv Hend Hfuel;
    (destruct fuel as [|fuel]; [lia|]).
  - cbn [collect]. unfold bind at 1, conn_ReadFrom at 1.
    rewrite Nat.add_0_r in Hend |- *. unfold reads_from. cbn [seq map flat_map gathered].
    rewrite !app_nil_r. unfold read_events.
    destruct (ReadFrom_result env (reads c)) as [e|d]; [|discriminate].
    destruct e as [msg [|] [|]|msg]; cbn in Hend; try discriminate; cbn; eauto.
  - cbn [collect]. unfold bind at 1, conn_ReadFrom at 1.
    pose proof (Hsurv 0%nat ltac:(lia)) as H0. rewrite Nat.add_0_r in H0.
    match goal with |- context [mkConn ?a ?b ?d ?e ?f (S (reads c))] =>
      set (c1 := mkConn a b d e f (S (reads c))) end.
    assert (Hsurv1 : forall i, (i < j)%nat ->
              survives (ReadFrom_result env (reads c1 + i)) = true).
    { intros i Hi. cbn. replace (S (reads c + i)) with (reads c + S i)%nat by lia.
      apply Hsurv. lia. }
    assert (Hend1 : survives (ReadFrom_result env (reads c1 + j)) = false).
    { cbn. replace (S (reads c + j)) with (reads c + S j)%nat by lia. exact Hend. }
    assert (Hseq : forall n, reads_from env (reads c) (S n)
              = ReadFrom_result env (reads c) :: reads_from env (reads c1) n).
    { intros n. reflexivity. }
    rewrite (Hseq (S j)), (Hseq j).
    replace (reads c + S j)%nat with (reads c1 + j)%nat by (cbn; lia).
    cbn [flat_map gathered]. fold (gathered env req (reads_from env (reads c1) j)).
    unfold read_events at 1.
    destruct (ReadFrom_result env (reads c)) as [e|d].
    + destruct e as [msg [|] [|]|msg]; cbn in H0; try discriminate.
      cbn [app]. unfold bind at 1, time_Sleep at 1.
      match goal with |- context [collect env fuel req acc ?c2] =>
        destruct (IH fuel acc c2) as (c' & Hrun & Hd) end;
        [exact Hsurv1 | exact Hend1 | lia |].
      rewrite Hrun. cbn. eauto.
    + cbn [app]. unfold bind at 1, http_ReadResponse at 1.
      destruct (ReadResponse_result env (substring 0 2048 d) req) as [e|r].
      * unfold bind at 1, log_Print at 1.
        destruct (IH fuel acc c1) as (c' & Hrun & Hd);
          [exact Hsurv1 | exact Hend1 | lia |].
        rewrite Hrun. cbn. eauto.
      * destruct (IH fuel (acc ++ [r]) c1) as (c' & Hrun & Hd);
          [exact Hsurv1 | exact Hend1 | lia |].
        rewrite Hrun. cbn. rewrite <- app_assoc. cbn. eauto.
Qed.
End ReadLoop.

Section ReadLoopShape.
Variable env : Env.
Variable req : Request.

Lemma collect_inv :
  forall fuel acc c,
    let '(o, c', tr) := collect env fuel req acc c in
    Forall (collect_event (deadline c)) tr /\
    match o with
    | Returned rs e => rs = [] /\ is_err e = true
    | _ => True
    end.
Proof.
  induction fuel as [|fuel IH]; intros acc c.
  - cbn. auto.
  - cbn [collect]. unfold bind at 1, conn_ReadFrom at 1.
    match goal with |- context [mkConn ?a ?b ?d ?e ?f (S (reads c))] =>
      set (c1 := mkConn a b d e f (S (reads c))) end.
    destruct (ReadFrom_result env (reads c)) as [e|d].
    + destruct e as [msg [|] [|]|msg]; cbn [pure ret app];
        try (split; [repeat constructor | auto]).
      unfold bind at 1, time_Sleep at 1.
      match goal with |- context [collect env fuel req acc ?c2] =>
        specialize (IH acc c2); destruct (collect env fuel req acc c2)
          as [[o c'] tr] end.
      cbn [deadline] in IH. destruct IH as [Hev Ho].
      destruct o; (split; [repeat constructor; auto | auto]).
    + unfold bind at 1, http_ReadResponse at 1.
      destruct (ReadResponse_result env (substring 0 2048 d) req) as [e|r].
      * unfold bind at 1, log_Print at 1.
        specialize (IH acc c1). destruct (collect env fuel req acc c1)
          as [[o c'] tr].
        cbn [deadline] in IH. destruct IH as [Hev Ho].
        destruct o; (split; [repeat constructor; auto | auto]).
      * specialize (IH (acc ++ [r]) c1).
        destruct (collect env fuel req (acc ++ [r]) c1) as [[o c'] tr].
        cbn [deadline] in IH. destruct IH as [Hev Ho].
        destruct o; (split; [repeat constructor; auto | auto]).
Qed.

Lemma collect_event_quiet dl tr :
  Forall (collect_event dl) tr ->
  existsb failed_write tr = false /\ sends tr = [] /\
  existsb is_set_deadline tr = false /\
  existsb is_write tr = false /\
  filter (is_sleep (5 * Millisecond)) tr = [] /\
  Forall (fun ev => ev = EvReadFrom dl) (filter is_read tr).
Proof.
  induction 1 as [|ev tr Hev _ IH]; [repeat split; constructor|].
  destruct IH as (H1 & H2 & H3 & H4 & H5 & H6).
  destruct ev; cbn in Hev; try contradiction; cbn;
    rewrite ?H1, ?H2, ?H3, ?H4, ?H5; subst;
    repeat split; auto.
Qed.

Lemma read_events_reads dl (l : list (error + string)) :
  List.length (filter is_read (flat_map (read_events env req dl) l))
  = List.length l.
Proof.
  induction l as [|r l IH]; [reflexivity|].
  cbn [flat_map]. rewrite filter_app, length_app, IH.
  unfold read_events. cbn [filter is_read List.length].
  destruct r as [[m [|] [|]|m]|d]; cbn; auto.
  destruct (ReadResponse_result env (substring 0 2048 d) req); reflexivity.
Qed.

Lemma reads_from_app from n m :
  reads_from env from (n + m)
  = reads_from env from n ++ reads_from env (from + n) m.
Proof. unfold reads_from. now rewrite seq_app, map_app. Qed.

(** Splitting the reads of a loop at read number [i < j]. *)
Lemma reads_from_split i j :
  (i < j)%nat ->
  reads_from env 0 j
  = reads_from env 0 i ++ ReadFrom_result env i
      :: reads_from env (S i) (j - S i).
Proof.
  intros Hij. replace j with (i + S (j - S i))%nat at 1 by lia.
  rewrite reads_from_app. cbn [Nat.add].
  reflexivity.
Qed.

Lemma gathered_app l1 l2 :
  gathered env req (l1 ++ l2) = gathered env req l1 ++ gathered env req l2.
Proof. unfold gathered. now rewrite flat_map_app. Qed.
End ReadLoopShape.

(** ** When the send phase completes *)

Lemma sending_event_quiet tr :
  forallb sending_event tr = true ->
  existsb is_read tr = false /\ existsb is_set_deadline tr = false /\
  filter is_read tr = [].
Proof.
  induction tr as [|ev tr IH]; [auto|].
  cbn [forallb]. intros H. apply andb_true_iff in H as [Hev Htr].
  destruct (IH Htr) as (H1 & H2 & H3).
  destruct ev; cbn in Hev; try discriminate; cbn; auto.
Qed.

Lemma sending_completes_inv env now req timeout numSends :
  sending_completes env now req timeout numSends = true ->
  exists a ifs c1 t,
    ResolveUDPAddr_result env (Host req) = inr a /\
    SetDeadline_result env = None /\
    Interfaces_result env = inr ifs /\
    request_and_send env req timeout numSends (conn0 now)
    = (Normal None, c1, setup_events req (now + timeout) ++ t) /\
    deadline c1 = Some (now + timeout) /\ reads c1 = 0%nat /\
    forallb sending_event t = true /\
    existsb failed_write t = false /\
    Forall (sent_through (payload req) ifs) (sends t) /\
    paused_rounds (payload req) ifs (Z.to_nat numSends) t.
Proof.
  unfold sending_completes, result. rewrite request_and_send_eq.
  cbn [clock conn0].
  destruct (ResolveUDPAddr_result env (Host req)) as [e|a]; [discriminate|].
  destruct (SetDeadline_result env) as [e|]; [discriminate|].
  destruct (Interfaces_result env) as [e|ifs]; [discriminate|].
  cbv zeta.
  pose proof (send_rounds_inv env (payload req) (Some a) (Z.to_nat numSends) ifs
                (set_deadline (conn0 now) (now + timeout))) as Hinv.
  unfold rounds_inv in Hinv.
  destruct (send_rounds env (Z.to_nat numSends) (payload req) (Some a) ifs
              (set_deadline (conn0 now) (now + timeout))) as [[o c1] t].
  destruct Hinv as (Hd & Hr & Hev & Hs & Ho).
  destruct o as [u|rs e|]; cbn [fst]; try discriminate. intros _.
  destruct Ho as [Hf Hshape].
  exists a, ifs, c1, t. repeat split; auto.
Qed.

(** Whatever the fuel, a run whose send phase completes is the setup, the
    rounds, then the calls of the read loop. *)
Lemma Do_trace_split env now req timeout numSends :
  sending_completes env now req timeout numSends = true ->
  forall fuel,
  exists ifs t tc,
    Interfaces_result env = inr ifs /\
    forallb sending_event t = true /\
    existsb failed_write t = false /\
    Forall (sent_through (payload req) ifs) (sends t) /\
    paused_rounds (payload req) ifs (Z.to_nat numSends) t /\
    Forall (collect_event (Some (now + timeout))) tc /\
    trace (run env now req timeout numSends fuel)
    = setup_events req (now + timeout) ++ t ++ tc.
Proof.
  intros Hsend fuel.
  destruct (sending_completes_inv _ _ _ _ _ Hsend)
    as (a & ifs & c1 & t & _ & _ & Hifs & Hrun & Hd & _ & Hev & Hf & Hs & Hshape).
  pose proof (collect_inv env req fuel [] c1) as Hc.
  unfold run, trace. rewrite Do_eq, Hrun.
  destruct (collect env fuel req [] c1) as [[o2 c2] tc].
  destruct Hc as [Hc _]. rewrite Hd in Hc.
  exists ifs, t, tc. cbn [snd]. rewrite <- app_assoc. repeat split; auto.
Qed.

(** With fuel to spare, the read loop runs up to the first read that does
    not survive, and that read decides what [Do] returns. *)
Lemma Do_run env now req timeout numSends fuel j :
  sending_completes env now req timeout numSends = true ->
  (forall i, (i < j)%nat -> survives (ReadFrom_result env i) = true) ->
  survives (ReadFrom_result env j) = false ->
  (j < fuel)%nat ->
  exists ifs t,
    Interfaces_result env = inr ifs /\
    forallb sending_event t = true /\
    existsb failed_write t = false /\
    paused_rounds (payload req) ifs (Z.to_nat numSends) t /\
    trace (run env now req timeout numSends fuel)
    = setup_events req (now + timeout) ++ t
      ++ flat_map (read_events env req (Some (now + timeout)))
                  (reads_from env 0 (S j)) /\
    result (run env now req timeout numSends fuel)
    = finish (loop_end (gathered env req (reads_from env 0 j))
                       (ReadFrom_result env j)).
Proof.
  intros Hsend Hsurv Hend Hfuel.
  destruct (sending_completes_inv _ _ _ _ _ Hsend)
    as (a & ifs & c1 & t & _ & _ & Hifs & Hrun & Hd & Hr & Hev & Hf & Hs & Hshape).
  destruct (collect_run env req j fuel [] c1) as (c2 & Hcol & _);
    [rewrite Hr; exact Hsurv | rewrite Hr; exact Hend | exact Hfuel |].
  rewrite Hr, Hd in Hcol. cbn [app Nat.add] in Hcol.
  exists ifs, t. unfold run, trace, result. rewrite Do_eq, Hrun, Hcol.
  cbn [fst snd]. rewrite <- app_assoc. repeat split; auto.
Qed.

(** Every send attempt of a run, completed or not, carries the request
    and goes through a multicast-capable interface. *)
Lemma Do_sends env now req timeout numSends fuel :
  Forall (fun s => snd s = payload req /\
                   exists ifc, fst s = Some ifc /\ multicast ifc = true)
         (sends (trace (run env now req timeout numSends fuel))).
Proof.
  unfold run, trace. rewrite Do_eq, request_and_send_eq. cbn [clock conn0].
  destruct (ResolveUDPAddr_result env (Host req)) as [e|a]; [constructor|].
  destruct (SetDeadline_result env) as [e|]; [constructor|].
  destruct (Interfaces_result env) as [e|ifs]; [constructor|].
  cbv zeta.
  pose proof (send_rounds_inv env (payload req) (Some a) (Z.to_nat numSends) ifs
                (set_deadline (conn0 now) (now + timeout))) as Hinv.
  unfold rounds_inv in Hinv.
  destruct (send_rounds env (Z.to_nat numSends) (payload req) (Some a) ifs
              (set_deadline (conn0 now) (now + timeout))) as [[o c1] ts].
  destruct Hinv as (_ & _ & _ & Hs & _).
  assert (Hts : Forall (fun s => snd s = payload req /\
                   exists ifc, fst s = Some ifc /\ multicast ifc = true)
                  (sends ts)).
  { eapply Forall_impl; [|exact Hs].
    intros s [Hb (ifc & Hv & _ & Hm)]. split; [exact Hb|]. now exists ifc. }
  destruct o as [u|rs e|]; [|cbn [snd]; rewrite sends_app; exact Hts ..].
  pose proof (collect_inv env req fuel [] c1) as Hc.
  destruct (collect env fuel req [] c1) as [[o2 c2] tc].
  destruct Hc as [Hc _]. apply collect_event_quiet in Hc.
  destruct Hc as (_ & Hnone & _). cbn [snd].
  rewrite !sends_app, Hnone, app_nil_r. exact Hts.
Qed.

Lemma send_event_no_pause tr :
  forallb send_event tr = true -> filter (is_sleep (5 * Millisecond)) tr = [].
Proof.
  induction tr as [|ev tr IH]; [reflexivity|].
  cbn [forallb]. intros H. apply andb_true_iff in H as [Hev Htr].
  destruct ev; cbn in Hev; try discriminate; cbn; auto.
Qed.

Lemma paused_rounds_sends buf ifs k tr :
  paused_rounds buf ifs k tr ->
  sends tr
  = List.concat (repeat (map (fun ifc => (Some ifc, buf)) (filter multicast ifs)) k).
Proof.
  revert tr; induction k as [|k IH]; intros tr; cbn [paused_rounds].
  - intros ->. reflexivity.
  - intros (round & rest & -> & _ & Hsends & Hrest).
    rewrite sends_app, Hsends. cbn [repeat List.concat].
    change (sends (pause :: rest)) with (sends rest).
    now rewrite (IH rest Hrest).
Qed.

Lemma paused_rounds_pauses buf ifs k tr :
  paused_rounds buf ifs k tr ->
  List.length (filter (is_sleep (5 * Millisecond)) tr) = k.
Proof.
  revert tr; induction k as [|k IH]; intros tr; cbn [paused_rounds].
  - intros ->. reflexivity.
  - intros (round & rest & -> & Hev & _ & Hrest).
    rewrite filter_app, (send_event_no_pause _ Hev). cbn [app].
    unfold pause. cbn [filter is_sleep]. rewrite Z.eqb_refl.
    cbn [List.length]. f_equal. now apply IH.
Qed.

Lemma length_concat_repeat {A} (l : list A) k :
  List.length (List.concat (repeat l k)) = (List.length l * k)%nat.
Proof.
  induction k as [|k IH]; cbn [repeat List.concat]; [cbn; lia|].
  rewrite length_app, IH. lia.
Qed.

Lemma forallb_reads_from env j :
  forallb survives (reads_from env 0 j) = true ->
  forall i, (i < j)%nat -> survives (ReadFrom_result env i) = true.
Proof.
  intros H i Hi. rewrite forallb_forall in H. apply H.
  unfold reads_from. apply in_map, in_seq. lia.
Qed.

(** The read that ends the loop is the last call of the run. *)
Lemma Do_run_end env now req timeout numSends fuel j :
  sending_completes env now req timeout numSends = true ->
  (forall n, (n < j)%nat -> survives (ReadFrom_result env n) = true) ->
  survives (ReadFrom_result env j) = false ->
  (j < fuel)%nat ->
  exists pre,
    trace (run env now req timeout numSends fuel)
    = pre ++ [EvReadFrom (Some (now + timeout))] /\
    List.length (filter is_read pre) = j.
Proof.
  intros Hsend Hsurv Hend Hfuel.
  destruct (Do_run env now req timeout numSends fuel j Hsend Hsurv Hend Hfuel)
    as (ifs & t & _ & Hev & _ & _ & Htr & _).
  replace (S j) with (j + 1)%nat in Htr by lia.
  rewrite reads_from_app, flat_map_app in Htr. cbn [Nat.add] in Htr.
  unfold reads_from at 2 in Htr. cbn [seq map flat_map] in Htr.
  assert (Hlast : read_events env req (Some (now + timeout)) (ReadFrom_result env j)
                  = [EvReadFrom (Some (now + timeout))]).
  { unfold read_events.
    destruct (ReadFrom_result env j) as [[m [|] [|]|m]|d];
      cbn in Hend; try discriminate; reflexivity. }
  rewrite Hlast in Htr. cbn [app] in Htr.
  exists (setup_events req (now + timeout) ++ t
          ++ flat_map (read_events env req (Some (now + timeout)))
                      (reads_from env 0 j)).
  split.
  - rewrite Htr, <- !app_assoc. reflexivity.
  - rewrite !filter_app, !length_app, read_events_reads.
    destruct (sending_event_quiet _ Hev) as (_ & _ & Hnone). rewrite Hnone.
    unfold reads_from. rewrite length_map, length_seq. reflexivity.
Qed.

(** * The claims *)

(** C1. The message [Do] builds is the request line
    ["<METHOD> <TARGET> HTTP/1.1\r\n"], then the headers, one
    ["Name: value\r\n"] line per entry, then ["\r\n"], and nothing after
    it; an empty method gives the request line of a [GET].  Building it
    never fails, and every datagram [Do] writes carries exactly it. *)
Theorem Do_encodes_request (m t host : string) (h : http_Header) :
  build_request (mkRequest m t host h)
  = (((if String.eqb m "" then "GET" else m) ++ " " ++ t ++ " HTTP/1.1" ++ CRLF
      ++ join (map (fun nv => fst nv ++ ": " ++ snd nv ++ CRLF) (header_entries h))
      ++ CRLF)%string, None)
  /\ fst (build_request (mkRequest "" t host h))
     = ("GET " ++ t ++ " HTTP/1.1" ++ CRLF
        ++ join (map (fun nv => fst nv ++ ": " ++ snd nv ++ CRLF) (header_entries h))
        ++ CRLF)%string
  /\ forall env now timeout numSends fuel,
       Forall (fun s => snd s = fst (build_request (mkRequest m t host h)))
              (sends (trace (run env now (mkRequest m t host h)
                                 timeout numSends fuel))).
Proof.
  split; [exact (build_request_eq (mkRequest m t host h))|].
  split; [rewrite build_request_eq; reflexivity|].
  intros env now timeout numSends fuel. rewrite build_request_eq.
  eapply Forall_impl; [|apply Do_sends]. intros s [Hb _]. exact Hb.
Qed.

(** C8. When the destination host does not resolve, [Do] returns the
    resolver's error and no responses, having made no call but the
    resolution: no deadline is set and no datagram is sent. *)
Theorem unresolved_host_sends_nothing env now req timeout numSends fuel e :
  ResolveUDPAddr_result env (Host req) = inl e ->
  run env now req timeout numSends fuel
  = (Returned [] (Some e), conn0 now, [EvResolveUDPAddr (Host req)])
  /\ sends (trace (run env now req timeout numSends fuel)) = [].
Proof.
  intros Hres. unfold run, trace.
  rewrite Do_eq, request_and_send_eq, Hres. split; reflexivity.
Qed.

Lemma unresolved_host_sends_nothing_witness :
  run no_route_env 0 msearch 100 2 5
  = (Returned [] (Some (PlainError "no such host")), conn0 0,
     [EvResolveUDPAddr "239.255.255.250:1900"])
  /\ sends (trace (run no_route_env 0 msearch 100 2 5)) = [].
Proof.
  apply (unresolved_host_sends_nothing no_route_env 0 msearch 100 2 5
           (PlainError "no such host")).
  reflexivity.
Defined.

(** C2. In a call with [numSends = k >= 1] whose send phase runs to its
    end, over an interface list with [N] multicast-capable interfaces,
    the send attempts are [k] passes over those [N] interfaces, in order:
    [N * k] attempts, each with the encoded request as payload, each
    through a multicast-capable interface of the list, so that an
    interface without the flag is sent through zero times. *)
Theorem sends_per_interface_per_round env now req timeout numSends fuel ifs :
  1 <= numSends ->
  Interfaces_result env = inr ifs ->
  sending_completes env now req timeout numSends = true ->
  sends (trace (run env now req timeout numSends fuel))
  = List.concat (repeat (map (fun ifc => (Some ifc, fst (build_request req)))
                        (filter multicast ifs))
                   (Z.to_nat numSends))
  /\ List.length (sends (trace (run env now req timeout numSends fuel)))
     = (List.length (filter multicast ifs) * Z.to_nat numSends)%nat
  /\ Forall (fun s => snd s = fst (build_request req) /\
                      exists ifc, fst s = Some ifc /\ In ifc ifs /\
                                  multicast ifc = true)
            (sends (trace (run env now req timeout numSends fuel))).
Proof.
  intros _ Hifs Hsend.
  destruct (Do_trace_split _ _ _ _ _ Hsend fuel)
    as (ifs' & t & tc & Hifs' & Hev & Hf & Hs & Hshape & Hc & Htr).
  rewrite Hifs in Hifs'. injection Hifs' as <-.
  apply collect_event_quiet in Hc. destruct Hc as (_ & Hnone & _).
  assert (Hsends : sends (trace (run env now req timeout numSends fuel))
                   = sends t).
  { rewrite Htr, !sends_app, Hnone, app_nil_r. reflexivity. }
  rewrite Hsends, build_request_eq. cbn [fst]. fold (payload req).
  rewrite (paused_rounds_sends _ _ _ _ Hshape).
  split; [reflexivity|]. split.
  - now rewrite length_concat_repeat, length_map.
  - rewrite <- (paused_rounds_sends _ _ _ _ Hshape). exact Hs.
Qed.

Lemma sends_per_interface_per_round_witness :
  sends (trace (run (quiet_env [lo; eth0; tun0] []) 0 msearch 100 2 5))
  = [(Some eth0, fst (build_request msearch));
     (Some eth0, fst (build_request msearch))]
  /\ List.length (sends (trace (run (quiet_env [lo; eth0; tun0] []) 0 msearch 100 2 5)))
     = 2%nat.
Proof.
  destruct (sends_per_interface_per_round
              (quiet_env [lo; eth0; tun0] []) 0 msearch 100 2 5 [lo; eth0; tun0])
    as (H1 & H2 & _); [lia | reflexivity | reflexivity |].
  split; [exact H1 | exact H2].
Defined.

(** C9, refuted as stated: with one round over one interface the 5ms
    pause occurs once, not zero times, and it stands between the last
    write and the first read. *)
Lemma pause_only_between_rounds_counterexample :
  trace (run (quiet_env [eth0] []) 0 msearch 100 1 5)
  = [EvResolveUDPAddr "239.255.255.250:1900"; EvSetDeadline 100; EvInterfaces;
     EvSetMulticastInterface eth0;
     EvWriteTo (fst (build_request msearch)) (Some ssdp_addr) (Some eth0) 43 None;
     EvSleep (5 * Millisecond);
     EvReadFrom (Some 100)]
  /\ List.length (filter (is_sleep (5 * Millisecond))
                         (trace (run (quiet_env [eth0] []) 0 msearch 100 1 5)))
     <> Z.to_nat (1 - 1).
Proof.
  split; [reflexivity | discriminate].
Qed.

(** C9, amended.  In a call with [numSends = k] whose send phase runs to
    its end, the 5ms pause follows every round over the interfaces, the
    final round included: the calls after the setup are [k] rounds, each
    one followed by the pause, then the calls of the read loop, and the
    pause occurs [k] times. *)
Theorem pause_follows_every_round env now req timeout numSends fuel :
  sending_completes env now req timeout numSends = true ->
  exists ifs t tc,
    Interfaces_result env = inr ifs /\
    trace (run env now req timeout numSends fuel)
    = setup_events req (now + timeout) ++ t ++ tc /\
    paused_rounds (fst (build_request req)) ifs (Z.to_nat numSends) t /\
    Forall (collect_event (Some (now + timeout))) tc /\
    List.length (filter (is_sleep (5 * Millisecond))
                        (trace (run env now req timeout numSends fuel)))
    = Z.to_nat numSends.
Proof.
  intros Hsend.
  destruct (Do_trace_split _ _ _ _ _ Hsend fuel)
    as (ifs & t & tc & Hifs & Hev & Hf & Hs & Hshape & Hc & Htr).
  exists ifs, t, tc. rewrite build_request_eq. cbn [fst]. fold (payload req).
  repeat split; auto.
  rewrite Htr, !filter_app, !length_app.
  rewrite (paused_rounds_pauses _ _ _ _ Hshape).
  apply collect_event_quiet in Hc. destruct Hc as (_ & _ & _ & _ & Hnone & _).
  rewrite Hnone. cbn. lia.
Qed.

Lemma pause_follows_every_round_witness :
  exists ifs t tc,
    Interfaces_result (quiet_env [eth0] []) = inr ifs /\
    trace (run (quiet_env [eth0] []) 0 msearch 100 1 5)
    = setup_events msearch (0 + 100) ++ t ++ tc /\
    paused_rounds (fst (build_request msearch)) ifs (Z.to_nat 1) t /\
    Forall (collect_event (Some (0 + 100))) tc /\
    List.length (filter (is_sleep (5 * Millisecond))
                        (trace (run (quiet_env [eth0] []) 0 msearch 100 1 5)))
    = Z.to_nat 1.
Proof.
  apply (pause_follows_every_round (quiet_env [eth0] []) 0 msearch 100 1 5).
  reflexivity.
Defined.

(** C3. When the send phase has run to its end and read number [j] of the
    loop fails with a timeout, the reads before it all being datagrams or
    temporary errors, [Do] makes no further call and returns, with a nil
    error, the responses parsed from the datagrams read before it; with
    [j = 0] that is the empty sequence and a nil error. *)
Theorem timeout_ends_collection env now req timeout numSends fuel j m tmp :
  sending_completes env now req timeout numSends = true ->
  forallb survives (reads_from env 0 j) = true ->
  ReadFrom_result env j = inl (NetError m true tmp) ->
  (j < fuel)%nat ->
  result (run env now req timeout numSends fuel)
  = Returned (gathered env req (reads_from env 0 j)) None
  /\ exists pre,
       trace (run env now req timeout numSends fuel)
       = pre ++ [EvReadFrom (Some (now + timeout))] /\
       List.length (filter is_read pre) = j.
Proof.
  intros Hsend Hsurv Hj Hfuel.
  pose proof (forallb_reads_from _ _ Hsurv) as Hsurv'.
  assert (Hend : survives (ReadFrom_result env j) = false) by now rewrite Hj.
  split; [|now apply Do_run_end].
  destruct (Do_run env now req timeout numSends fuel j Hsend Hsurv' Hend Hfuel)
    as (ifs & t & _ & _ & _ & _ & _ & Hres).
  rewrite Hres, Hj. reflexivity.
Qed.

Lemma timeout_ends_collection_witness :
  result (run (quiet_env [eth0] []) 0 msearch 100 2 5) = Returned [] None
  /\ exists pre,
       trace (run (quiet_env [eth0] []) 0 msearch 100 2 5)
       = pre ++ [EvReadFrom (Some (0 + 100))] /\
       List.length (filter is_read pre) = 0%nat.
Proof.
  apply (timeout_ends_collection (quiet_env [eth0] []) 0 msearch 100 2 5 0
           "i/o timeout" true);
    [reflexivity | reflexivity | reflexivity | lia].
Defined.

(** C10. With [numSends <= 0] no datagram is sent, whatever the world
    answers.  When the setup calls succeed the deadline is set all the
    same and the read loop runs: if read number [j] is the first to time
    out, the earlier ones being datagrams or temporary errors, the calls
    of [Do] are the three setup calls followed by those of the reads, and
    [Do] returns the parsed responses with a nil error. *)
Theorem no_rounds_still_collects env now req timeout numSends fuel a ifs j m tmp :
  numSends <= 0 ->
  ResolveUDPAddr_result env (Host req) = inr a ->
  SetDeadline_result env = None ->
  Interfaces_result env = inr ifs ->
  forallb survives (reads_from env 0 j) = true ->
  ReadFrom_result env j = inl (NetError m true tmp) ->
  (j < fuel)%nat ->
  (forall env' now' req' timeout' fuel',
     sends (trace (run env' now' req' timeout' numSends fuel')) = [])
  /\ trace (run env now req timeout numSends fuel)
     = [EvResolveUDPAddr (Host req); EvSetDeadline (now + timeout); EvInterfaces]
       ++ flat_map (read_events env req (Some (now + timeout)))
                   (reads_from env 0 (S j))
  /\ result (run env now req timeout numSends fuel)
     = Returned (gathered env req (reads_from env 0 j)) None.
Proof.
  intros Hk Hres Hdl Hifs Hsurv Hj Hfuel.
  assert (Hzero : Z.to_nat numSends = 0%nat) by lia.
  split.
  - intros env' now' req' timeout' fuel'.
    unfold run, trace. rewrite Do_eq, request_and_send_eq, Hzero.
    destruct (ResolveUDPAddr_result env' (Host req')); [reflexivity|].
    destruct (SetDeadline_result env'); [reflexivity|].
    destruct (Interfaces_result env'); [reflexivity|].
    cbn [send_rounds pure].
    match goal with |- context [collect env' fuel' req' [] ?c] =>
      pose proof (collect_inv env' req' fuel' [] c) as Hc;
      destruct (collect env' fuel' req' [] c) as [[o2 c2] tc] end.
    destruct Hc as [Hc _]. apply collect_event_quiet in Hc.
    destruct Hc as (_ & Hnone & _). cbn [snd].
    rewrite sends_app, Hnone. reflexivity.
  - assert (Hsend : sending_completes env now req timeout numSends = true).
    { unfold sending_completes, result.
      rewrite request_and_send_eq, Hres, Hdl, Hifs, Hzero. reflexivity. }
    destruct (Do_run env now req timeout numSends fuel j Hsend)
      as (ifs' & t & _ & _ & _ & Hshape & Htr & Hresult);
      [now apply forallb_reads_from | now rewrite Hj | exact Hfuel |].
    rewrite Hzero in Hshape. cbn in Hshape. subst t.
    rewrite Htr, Hresult, Hj. split; reflexivity.
Qed.

Lemma no_rounds_still_collects_witness :
  trace (run (quiet_env [eth0] [inr "HTTP/1.1 200 OK"]) 0 msearch 100 (-1) 5)%string
  = [EvResolveUDPAddr "239.255.255.250:1900"; EvSetDeadline 100; EvInterfaces;
     EvReadFrom (Some 100); EvReadFrom (Some 100)]
  /\ result (run (quiet_env [eth0] [inr "HTTP/1.1 200 OK"]) 0 msearch 100 (-1) 5)%string
     = Returned [ok_response] None.
Proof.
  destruct (no_rounds_still_collects
              (quiet_env [eth0] [inr "HTTP/1.1 200 OK"%string]) 0 msearch 100 (-1) 5
              ssdp_addr [eth0] 1 "i/o timeout" true)
    as (_ & H2 & H3);
    [lia | reflexivity | reflexivity | reflexivity | reflexivity | reflexivity
     | lia |].
  split; [exact H2 | exact H3].
Defined.

(** The calls around read number [i] of a loop that ends at read [j]. *)
Lemma Do_run_at env now req timeout numSends fuel i j :
  sending_completes env now req timeout numSends = true ->
  (forall n, (n < j)%nat -> survives (ReadFrom_result env n) = true) ->
  survives (ReadFrom_result env j) = false ->
  (j < fuel)%nat ->
  (i < j)%nat ->
  exists pre post,
    trace (run env now req timeout numSends fuel)
    = pre ++ read_events env req (Some (now + timeout)) (ReadFrom_result env i)
      ++ EvReadFrom (Some (now + timeout)) :: post /\
    List.length (filter is_read pre) = i.
Proof.
  intros Hsend Hsurv Hend Hfuel Hij.
  destruct (Do_run env now req timeout numSends fuel j Hsend Hsurv Hend Hfuel)
    as (ifs & t & _ & Hev & _ & _ & Htr & _).
  replace (S j) with (i + S (S (j - S i)))%nat in Htr by lia.
  rewrite reads_from_app in Htr. cbn [Nat.add] in Htr.
  change (reads_from env i (S (S (j - S i))))
    with (ReadFrom_result env i :: ReadFrom_result env (S i)
            :: reads_from env (S (S i)) (j - S i)) in Htr.
  rewrite flat_map_app in Htr. cbn [flat_map] in Htr.
  unfold read_events at 3 in Htr. cbn [app] in Htr.
  eexists (setup_events req (now + timeout) ++ t
           ++ flat_map (read_events env req (Some (now + timeout)))
                       (reads_from env 0 i)), _.
  split.
  - rewrite Htr, <- !app_assoc. reflexivity.
  - rewrite !filter_app, !length_app, read_events_reads.
    destruct (sending_event_quiet _ Hev) as (_ & _ & Hnone). rewrite Hnone.
    unfold reads_from. rewrite length_map, length_seq. reflexivity.
Qed.

(** C5. When the send phase has run to its end and datagram number [i]
    of the loop does not parse, the loop ending in a timeout at a later
    read [j]: the failure is logged, the loop reads on, and [Do] returns
    with a nil error the responses parsed from the datagrams before and
    after it, the ones after it included and nothing for the malformed
    one. *)
Theorem malformed_datagram_is_skipped
        env now req timeout numSends fuel i j d e m tmp :
  sending_completes env now req timeout numSends = true ->
  forallb survives (reads_from env 0 j) = true ->
  ReadFrom_result env j = inl (NetError m true tmp) ->
  (j < fuel)%nat ->
  (i < j)%nat ->
  ReadFrom_result env i = inr d ->
  ReadResponse_result env (substring 0 2048 d) req = inl e ->
  result (run env now req timeout numSends fuel)
  = Returned (gathered env req (reads_from env 0 i)
              ++ gathered env req (reads_from env (S i) (j - S i))) None
  /\ exists pre post,
       trace (run env now req timeout numSends fuel)
       = pre ++ [EvReadFrom (Some (now + timeout));
                 EvLogPrint ("httpu: error while parsing response: %v" ++ Error_ e);
                 EvReadFrom (Some (now + timeout))] ++ post /\
       List.length (filter is_read pre) = i.
Proof.
  intros Hsend Hsurv Hj Hfuel Hij Hi Hparse.
  pose proof (forallb_reads_from _ _ Hsurv) as Hsurv'.
  assert (Hend : survives (ReadFrom_result env j) = false) by now rewrite Hj.
  split.
  - destruct (Do_run env now req timeout numSends fuel j Hsend Hsurv' Hend Hfuel)
      as (ifs & t & _ & _ & _ & _ & _ & Hres).
    rewrite Hres, Hj. cbn [loop_end finish].
    rewrite (reads_from_split env i j Hij), gathered_app, Hi.
    cbn [gathered flat_map]. rewrite Hparse. reflexivity.
  - destruct (Do_run_at env now req timeout numSends fuel i j
                Hsend Hsurv' Hend Hfuel Hij) as (pre & post & Htr & Hpre).
    exists pre, post. split; [|exact Hpre].
    rewrite Htr, Hi. unfold read_events. rewrite Hparse. reflexivity.
Qed.

Lemma malformed_datagram_is_skipped_witness :
  result (run junk_env 0 msearch 100 1 9) = Returned [ok_response; ok_response] None
  /\ exists pre post,
       trace (run junk_env 0 msearch 100 1 9)
       = pre ++ [EvReadFrom (Some (0 + 100));
                 EvLogPrint "httpu: error while parsing response: %vmalformed HTTP response";
                 EvReadFrom (Some (0 + 100))] ++ post /\
       List.length (filter is_read pre) = 1%nat.
Proof.
  apply (malformed_datagram_is_skipped junk_env 0 msearch 100 1 9 1 3
           "junk" (PlainError "malformed HTTP response") "i/o timeout" true);
    [reflexivity | reflexivity | reflexivity | lia | lia | reflexivity | reflexivity].
Defined.

(** C6. When the send phase has run to its end and the loop ends at read
    number [j], which fails with error [e], the reads before it all being
    datagrams or temporary errors: a temporary, non-timeout error at an
    earlier read [i] is followed by a 10ms sleep and the next read, and
    adds nothing to the responses; read [j] is the last call [Do] makes,
    and [Do] returns its error and no responses when that error is
    neither a timeout nor temporary, and a nil error otherwise, so a
    temporary error is never returned. *)
Theorem temporary_error_retried_other_error_returned
        env now req timeout numSends fuel j e :
  sending_completes env now req timeout numSends = true ->
  forallb survives (reads_from env 0 j) = true ->
  ReadFrom_result env j = inl e ->
  survives (inl e) = false ->
  (j < fuel)%nat ->
  result (run env now req timeout numSends fuel)
  = match e with
    | NetError _ true _ => Returned (gathered env req (reads_from env 0 j)) None
    | _ => Returned [] (Some e)
    end
  /\ (exists pre,
        trace (run env now req timeout numSends fuel)
        = pre ++ [EvReadFrom (Some (now + timeout))] /\
        List.length (filter is_read pre) = j)
  /\ forall i m,
       (i < j)%nat ->
       ReadFrom_result env i = inl (NetError m false true) ->
       gathered env req (reads_from env 0 j)
       = gathered env req (reads_from env 0 i)
         ++ gathered env req (reads_from env (S i) (j - S i))
       /\ exists pre post,
            trace (run env now req timeout numSends fuel)
            = pre ++ [EvReadFrom (Some (now + timeout));
                      EvSleep (10 * Millisecond);
                      EvReadFrom (Some (now + timeout))] ++ post /\
            List.length (filter is_read pre) = i.
Proof.
  intros Hsend Hsurv Hj He Hfuel.
  pose proof (forallb_reads_from _ _ Hsurv) as Hsurv'.
  assert (Hend : survives (ReadFrom_result env j) = false) by now rewrite Hj.
  split.
  - destruct (Do_run env now req timeout numSends fuel j Hsend Hsurv' Hend Hfuel)
      as (ifs & t & _ & _ & _ & _ & _ & Hres).
    rewrite Hres, Hj.
    destruct e as [msg [|] [|]|msg]; cbn in He; try discriminate; reflexivity.
  - split; [now apply Do_run_end|].
    intros i m Hij Hi. split.
    + rewrite (reads_from_split env i j Hij), gathered_app, Hi. reflexivity.
    + destruct (Do_run_at env now req timeout numSends fuel i j
                  Hsend Hsurv' Hend Hfuel Hij) as (pre & post & Htr & Hpre).
      exists pre, post. split; [|exact Hpre].
      rewrite Htr, Hi. reflexivity.
Qed.

Lemma temporary_error_retried_other_error_returned_witness :
  result (run refused_env 0 msearch 100 1 9) = Returned [] (Some conn_refused)
  /\ exists pre post,
       trace (run refused_env 0 msearch 100 1 9)
       = pre ++ [EvReadFrom (Some (0 + 100)); EvSleep (10 * Millisecond);
                 EvReadFrom (Some (0 + 100))] ++ post /\
       List.length (filter is_read pre) = 1%nat.
Proof.
  destruct (temporary_error_retried_other_error_returned
              refused_env 0 msearch 100 1 9 3 conn_refused)
    as (Hres & _ & Htemp);
    [reflexivity | reflexivity | reflexivity | reflexivity | lia |].
  split; [exact Hres|].
  destruct (Htemp 1%nat "interrupted system call"%string) as [_ Htr];
    [lia | reflexivity | exact Htr].
Defined.

(** A call that returns a nil error got past its send phase. *)
Lemma returned_nil_sending_completes env now req timeout numSends fuel rs :
  result (run env now req timeout numSends fuel) = Returned rs None ->
  sending_completes env now req timeout numSends = true.
Proof.
  unfold run, result, sending_completes. rewrite Do_eq.
  pose proof (request_and_send_eq env req timeout numSends (conn0 now)) as Heq.
  destruct (request_and_send env req timeout numSends (conn0 now))
    as [[o c1] t1].
  destruct o as [err|rs' e|]; cbn [fst]; [reflexivity | | discriminate].
  intros Hret. injection Hret as -> ->. exfalso.
  destruct (ResolveUDPAddr_result env (Host req)) as [e|a]; [discriminate|].
  destruct (SetDeadline_result env) as [e|]; [discriminate|].
  destruct (Interfaces_result env) as [e|ifs]; [discriminate|].
  cbv zeta in Heq.
  pose proof (send_rounds_inv env (payload req) (Some a) (Z.to_nat numSends) ifs
                (set_deadline (conn0 now) (clock (conn0 now) + timeout))) as Hinv.
  unfold rounds_inv in Hinv.
  destruct (send_rounds env (Z.to_nat numSends) (payload req) (Some a) ifs
              (set_deadline (conn0 now) (clock (conn0 now) + timeout)))
    as [[o c2] t].
  destruct Hinv as (_ & _ & _ & _ & Ho).
  destruct o as [u|rs' e|]; try discriminate.
  injection Heq as _ He _ _. subst e.
  destruct Ho as (_ & Herr & _). discriminate.
Qed.

(** C4. In a call that returns a nil error, the deadline [now + timeout]
    is set by the second call [Do] makes, before any write; no later call
    sets a deadline; and every read of the call is made under that
    deadline. *)
Theorem deadline_set_once_before_sending env now req timeout numSends fuel rs :
  result (run env now req timeout numSends fuel) = Returned rs None ->
  exists rest,
    trace (run env now req timeout numSends fuel)
    = [EvResolveUDPAddr (Host req); EvSetDeadline (now + timeout); EvInterfaces]
      ++ rest /\
    existsb is_set_deadline rest = false /\
    Forall (fun ev => ev = EvReadFrom (Some (now + timeout)))
           (filter is_read rest).
Proof.
  intros Hret. apply returned_nil_sending_completes in Hret.
  destruct (Do_trace_split _ _ _ _ _ Hret fuel)
    as (ifs & t & tc & _ & Hev & _ & _ & _ & Hc & Htr).
  exists (t ++ tc). split; [exact Htr|].
  destruct (sending_event_quiet _ Hev) as (_ & Hsd & Hrd).
  apply collect_event_quiet in Hc. destruct Hc as (_ & _ & Hsd' & _ & _ & Hrd').
  rewrite existsb_app, Hsd, Hsd', filter_app, Hrd. split; [reflexivity|].
  exact Hrd'.
Qed.

Lemma deadline_set_once_before_sending_witness :
  exists rest,
    trace (run junk_env 7 msearch 100 2 9)
    = [EvResolveUDPAddr (Host msearch); EvSetDeadline (7 + 100); EvInterfaces]
      ++ rest /\
    existsb is_set_deadline rest = false /\
    Forall (fun ev => ev = EvReadFrom (Some (7 + 100))) (filter is_read rest).
Proof.
  apply (deadline_set_once_before_sending junk_env 7 msearch 100 2 9
           [ok_response; ok_response]).
  reflexivity.
Defined.

(** C7. A send attempt that fails, by a write error or by writing fewer
    bytes than the message has, ends the call: it is the last call [Do]
    makes, no earlier attempt had failed, no read is made, and [Do]
    returns no responses and a non-nil error, the write's own or the
    short-write error. *)
Theorem failed_write_aborts env now req timeout numSends fuel :
  existsb failed_write (trace (run env now req timeout numSends fuel)) = true ->
  exists pre b dst via n err,
    trace (run env now req timeout numSends fuel)
    = pre ++ [EvWriteTo b dst via n err] /\
    existsb failed_write pre = false /\
    (is_err err = true \/ n < len b) /\
    result (run env now req timeout numSends fuel)
    = Returned [] (if is_err err then err
                   else Some (Errorf_short_write n (len b))) /\
    is_err (if is_err err then err else Some (Errorf_short_write n (len b)))
    = true /\
    existsb is_read (trace (run env now req timeout numSends fuel)) = false.
Proof.
  unfold run, trace, result. rewrite Do_eq, request_and_send_eq.
  destruct (ResolveUDPAddr_result env (Host req)) as [e|a]; [discriminate|].
  destruct (SetDeadline_result env) as [e|]; [discriminate|].
  destruct (Interfaces_result env) as [e|ifs]; [discriminate|].
  cbv zeta.
  pose proof (send_rounds_inv env (payload req) (Some a) (Z.to_nat numSends) ifs
                (set_deadline (conn0 now) (clock (conn0 now) + timeout))) as Hinv.
  unfold rounds_inv in Hinv.
  destruct (send_rounds env (Z.to_nat numSends) (payload req) (Some a) ifs
              (set_deadline (conn0 now) (clock (conn0 now) + timeout)))
    as [[o c2] t].
  destruct Hinv as (_ & _ & Hev & _ & Ho).
  destruct (sending_event_quiet _ Hev) as (Hnoread & _ & _).
  destruct o as [u|rs e|]; [| |contradiction].
  - destruct Ho as [Hclean _].
    match goal with |- context [collect env fuel req [] ?c] =>
      pose proof (collect_inv env req fuel [] c) as Hc;
      destruct (collect env fuel req [] c) as [[o2 c3] tc] end.
    destruct Hc as [Hc _]. apply collect_event_quiet in Hc.
    destruct Hc as (Hclean' & _). cbn [snd].
    rewrite !existsb_app, Hclean, Hclean'. discriminate.
  - cbn [snd fst]. destruct Ho as (-> & He & [Hclean | Hab]).
    + rewrite existsb_app, Hclean. discriminate.
    + intros _.
      destruct Hab as (pre & W & -> & Hpre & HW & Ho & HeW).
      destruct W as [| | | |b dst via n err| | |]; try discriminate.
      exists (setup_events req (clock (conn0 now) + timeout) ++ pre),
        b, dst, via, n, err.
      cbn [write_error] in Ho, HeW. cbn [failed_write] in HW.
      split; [now rewrite <- app_assoc|]. repeat split.
      * rewrite existsb_app, Hpre. reflexivity.
      * apply orb_true_iff in HW as [H|H]; [now left | right; lia].
      * exact Ho.
      * exact HeW.
      * rewrite existsb_app, Hnoread. reflexivity.
Qed.

Lemma failed_write_aborts_witness :
  exists pre b dst via n err,
    trace (run short_write_env 0 msearch 100 3 9)
    = pre ++ [EvWriteTo b dst via n err] /\
    existsb failed_write pre = false /\
    (is_err err = true \/ n < len b) /\
    result (run short_write_env 0 msearch 100 3 9)
    = Returned [] (if is_err err then err
                   else Some (Errorf_short_write n (len b))) /\
    is_err (if is_err err then err else Some (Errorf_short_write n (len b)))
    = true /\
    existsb is_read (trace (run short_write_env 0 msearch 100 3 9)) = false.
Proof.
  apply (failed_write_aborts short_write_env 0 msearch 100 3 9).
  reflexivity.
Defined.

(** * Further properties of [Do] *)

(** ** Selections and writes *)

Lemma filter_all {A} (p : A -> bool) (l : list A) :
  forallb p l = true -> filter p l = l.
Proof.
  induction l as [|x l IH]; cbn; [reflexivity|].
  intros H. apply andb_true_iff in H as [Hx Hl]. rewrite Hx. now rewrite IH.
Qed.

Lemma select_write_pairs_lone buf dst tr :
  select_write_pairs buf dst false tr -> select_write_pairs buf dst true tr.
Proof.
  assert (H : forall n tr, (List.length tr <= n)%nat ->
            select_write_pairs buf dst false tr ->
            select_write_pairs buf dst true tr).
  { induction n as [|n IH]; intros l Hn.
    - destruct l; [auto | cbn in Hn; lia].
    - destruct l as [|ev l]; [auto|].
      destruct ev; cbn; try tauto.
      intros [Hm Hrest]. split; [exact Hm|].
      destruct l as [|ev' l]; [discriminate|].
      destruct ev'; try contradiction.
      destruct Hrest as (Hb & Hd & Hv & Hl). repeat split; auto.
      apply IH; [cbn in Hn; lia | exact Hl]. }
  apply (H (List.length tr)). lia.
Qed.

Lemma select_write_pairs_app buf dst lone t1 t2 :
  select_write_pairs buf dst false t1 ->
  select_write_pairs buf dst lone t2 ->
  select_write_pairs buf dst lone (t1 ++ t2).
Proof.
  intros H1 H2.
  assert (H : forall n t1, (List.length t1 <= n)%nat ->
            select_write_pairs buf dst false t1 ->
            select_write_pairs buf dst lone (t1 ++ t2)).
  { induction n as [|n IH]; intros l Hn.
    - destruct l; [intros _; exact H2 | cbn in Hn; lia].
    - destruct l as [|ev l]; [intros _; exact H2|].
      destruct ev; cbn; try tauto.
      intros [Hm Hrest]. split; [exact Hm|].
      destruct l as [|ev' l]; [discriminate|].
      destruct ev'; try contradiction.
      destruct Hrest as (Hb & Hd & Hv & Hl). cbn. repeat split; auto.
      apply IH; [cbn in Hn; lia | exact Hl]. }
  apply (H (List.length t1)); [lia | exact H1].
Qed.

Section Selections.
Variable env : Env.
Variables (buf : Buffer) (dst : option UDPAddr).

Lemma send_round_pairs :
  forall ifs c,
    let '(o, _, tr) := send_round env buf dst ifs c in
    select_write_pairs buf dst (gave_up o) tr.
Proof.
  induction ifs as [|ifc rest IH]; intros c; [exact I|].
  cbn [send_round].
  destruct (Z.land (Flags ifc) FlagMulticast =? 0) eqn:Hflag; [apply IH|].
  assert (Hm : multicast ifc = true) by (unfold multicast; now rewrite Hflag).
  unfold bind at 1, conn_SetMulticastInterface at 1.
  destruct (SetMulticastInterface_result env (setifs c) ifc) as [e|];
    [cbn; auto|].
  cbn [is_err]. unfold bind at 1, conn_WriteTo at 1.
  cbn [multicastIf writes clock deadline setifs reads fst snd].
  destruct (WriteTo_result env (writes c) buf) as [n [e|]];
    [cbn; auto|].
  cbn [fst snd is_err].
  destruct (n <? len buf); [cbn; auto|].
  match goal with |- context [send_round env buf dst rest ?c2] =>
    specialize (IH c2); destruct (send_round env buf dst rest c2)
      as [[o c'] tr] end.
  cbn. auto.
Qed.

Lemma send_rounds_pairs :
  forall k ifs c,
    let '(o, _, tr) := send_rounds env k buf dst ifs c in
    select_write_pairs buf dst (gave_up o) (filter send_event tr).
Proof.
  induction k as [|k IH]; intros ifs c; [exact I|].
  cbn [send_rounds]. unfold bind at 1.
  pose proof (send_round_pairs ifs c) as Hp.
  pose proof (send_round_inv env buf dst ifs c) as Hinv. unfold send_inv in Hinv.
  destruct (send_round env buf dst ifs c) as [[o1 c1] t1].
  destruct Hinv as (_ & _ & _ & Hev & _).
  destruct o1 as [u|rs e|]; [|now rewrite (filter_all _ _ Hev) ..].
  unfold bind at 1, time_Sleep at 1.
  match goal with |- context [send_rounds env k buf dst ifs ?c2] =>
    specialize (IH ifs c2); destruct (send_rounds env k buf dst ifs c2)
      as [[o c'] tr] end.
  rewrite filter_app, (filter_all _ _ Hev). cbn [app filter send_event].
  apply select_write_pairs_app; assumption.
Qed.
End Selections.

(** ** Any run, on any socket *)

Lemma collect_event_no_send dl tr :
  Forall (collect_event dl) tr -> filter send_event tr = [].
Proof.
  induction 1 as [|ev tr Hev _ IH]; [reflexivity|].
  destruct ev; cbn in Hev; try contradiction; cbn; exact IH.
Qed.

(** A run is some of the setup calls, then calls of the send phase, then
    calls of the read loop under the deadline of this call. *)
Lemma Do_shape env c req timeout numSends fuel :
  exists s t tc,
    trace (Do env req timeout numSends fuel c) = s ++ t ++ tc /\
    forallb setup_event s = true /\
    forallb sending_event t = true /\
    Forall (collect_event (Some (clock c + timeout))) tc /\
    (forall a, ResolveUDPAddr_result env (Host req) = inr a ->
               select_write_pairs (payload req) (Some a) true
                                  (filter send_event t)) /\
    match result (Do env req timeout numSends fuel c) with
    | Returned rs (Some _) => rs = []
    | _ => True
    end.
Proof.
  unfold trace, result. rewrite Do_eq, request_and_send_eq.
  destruct (ResolveUDPAddr_result env (Host req)) as [e|a].
  { exists [EvResolveUDPAddr (Host req)], [], []. cbn.
    repeat split; auto. }
  destruct (SetDeadline_result env) as [e|].
  { exists [EvResolveUDPAddr (Host req); EvSetDeadline (clock c + timeout)], [], [].
    cbn. repeat split; auto. }
  destruct (Interfaces_result env) as [e|ifs].
  { exists (setup_events req (clock c + timeout)), [], [].
    cbn. repeat split; auto. }
  cbv zeta.
  pose proof (send_rounds_inv env (payload req) (Some a) (Z.to_nat numSends) ifs
                (set_deadline c (clock c + timeout))) as Hinv.
  pose proof (send_rounds_pairs env (payload req) (Some a) (Z.to_nat numSends) ifs
                (set_deadline c (clock c + timeout))) as Hp.
  unfold rounds_inv in Hinv.
  destruct (send_rounds env (Z.to_nat numSends) (payload req) (Some a) ifs
              (set_deadline c (clock c + timeout))) as [[o c2] t].
  destruct Hinv as (Hd & _ & Hev & _ & Ho).
  assert (Hpairs : forall a0, @inr error UDPAddr a = inr a0 ->
            select_write_pairs (payload req) (Some a0) true (filter send_event t)).
  { intros a0 Ha. injection Ha as <-.
    destruct o; cbn [gave_up] in Hp; auto using select_write_pairs_lone. }
  destruct o as [u|rs e|]; [| |contradiction].
  - pose proof (collect_inv env req fuel [] c2) as Hc.
    destruct (collect env fuel req [] c2) as [[o2 c3] tc].
    destruct Hc as [Hc Hret]. rewrite Hd in Hc. cbn [deadline set_deadline] in Hc.
    exists (setup_events req (clock c + timeout)), t, tc. cbn [fst snd].
    rewrite <- app_assoc. repeat split; auto.
    destruct o2 as [responses|rs e|]; auto.
    destruct Hret as [-> _]. destruct e; auto.
  - exists (setup_events req (clock c + timeout)), t, []. cbn [fst snd].
    rewrite app_nil_r. repeat split; auto.
    destruct Ho as (-> & _). destruct e; auto.
Qed.

Lemma setup_event_quiet s :
  forallb setup_event s = true ->
  filter is_read s = [] /\ filter send_event s = [] /\
  existsb is_read s = false /\ existsb is_write s = false.
Proof.
  induction s as [|ev s IH]; [auto|].
  cbn [forallb]. intros H. apply andb_true_iff in H as [Hev Hs].
  destruct (IH Hs) as (H1 & H2 & H3 & H4).
  destruct ev; cbn in Hev; try discriminate; cbn; auto.
Qed.

Lemma sending_event_no_write_after tr :
  forallb sending_event tr = true -> existsb is_read tr = false.
Proof. intros H. now destruct (sending_event_quiet _ H). Qed.

(** X1. Whatever the state of the socket and whatever the world answers,
    a call of [Do] that returns an error returns no responses with it:
    the responses gathered before a fatal read error are dropped. *)
Theorem error_means_no_responses env c req timeout numSends fuel rs e :
  result (Do env req timeout numSends fuel c) = Returned rs (Some e) ->
  rs = [].
Proof.
  intros Hres.
  destruct (Do_shape env c req timeout numSends fuel)
    as (s & t & tc & _ & _ & _ & _ & _ & Hret).
  rewrite Hres in Hret. exact Hret.
Qed.

Lemma error_means_no_responses_witness :
  result (Do refused_env msearch 100 1 9 (conn0 0))
  = Returned [] (Some conn_refused)
  /\ ([] : list Response) = [].
Proof.
  split; [reflexivity|].
  apply (error_means_no_responses refused_env (conn0 0) msearch 100 1 9
           [] conn_refused).
  reflexivity.
Defined.

(** X2. On a socket that an earlier call has left with any deadline, every
    read of a call is made under the deadline of this call, the clock at
    its start plus [timeout]: never under the stale one. *)
Theorem reads_under_the_deadline_of_the_call env c req timeout numSends fuel :
  Forall (fun ev => ev = EvReadFrom (Some (clock c + timeout)))
         (filter is_read (trace (Do env req timeout numSends fuel c))).
Proof.
  destruct (Do_shape env c req timeout numSends fuel)
    as (s & t & tc & Htr & Hs & Ht & Hc & _).
  rewrite Htr, !filter_app.
  destruct (setup_event_quiet _ Hs) as (Hs' & _).
  destruct (sending_event_quiet _ Ht) as (_ & _ & Ht').
  rewrite Hs', Ht'. cbn [app].
  apply collect_event_quiet in Hc. now destruct Hc as (_ & _ & _ & _ & _ & Hc).
Qed.

(** X3. On any socket, whatever interface an earlier call left selected:
    among the selections and writes of a call, every write comes right
    after the selection of the multicast-capable interface it goes
    through, carries the encoded request and goes to the address that
    [req.Host] resolved to; a selection with no write after it can only
    be the last. *)
Theorem writes_follow_their_selection env c req timeout numSends fuel a :
  ResolveUDPAddr_result env (Host req) = inr a ->
  select_write_pairs (fst (build_request req)) (Some a) true
                     (filter send_event
                             (trace (Do env req timeout numSends fuel c))).
Proof.
  intros Hres.
  destruct (Do_shape env c req timeout numSends fuel)
    as (s & t & tc & Htr & Hs & _ & Hc & Hp & _).
  rewrite Htr, !filter_app.
  destruct (setup_event_quiet _ Hs) as (_ & Hs' & _).
  rewrite Hs', (collect_event_no_send _ _ Hc), app_nil_r. cbn [app].
  rewrite build_request_eq. exact (Hp a Hres).
Qed.

Lemma writes_follow_their_selection_witness :
  filter send_event (trace (Do (quiet_env [lo; eth0] []) msearch 100 2 5 used_conn))
  = [EvSetMulticastInterface eth0;
     EvWriteTo (fst (build_request msearch)) (Some ssdp_addr) (Some eth0) 43 None;
     EvSetMulticastInterface eth0;
     EvWriteTo (fst (build_request msearch)) (Some ssdp_addr) (Some eth0) 43 None]
  /\ select_write_pairs (fst (build_request msearch)) (Some ssdp_addr) true
       (filter send_event
               (trace (Do (quiet_env [lo; eth0] []) msearch 100 2 5 used_conn))).
Proof.
  split; [reflexivity|].
  apply (writes_follow_their_selection (quiet_env [lo; eth0] []) used_conn
           msearch 100 2 5 ssdp_addr).
  reflexivity.
Defined.

(** X4. [Do] never writes once it has started to read: the calls of any
    run split into a first part without a read and a second part without
    a write. *)
Theorem no_write_after_a_read env c req timeout numSends fuel :
  exists before after,
    trace (Do env req timeout numSends fuel c) = before ++ after /\
    existsb is_read before = false /\
    existsb is_write after = false.
Proof.
  destruct (Do_shape env c req timeout numSends fuel)
    as (s & t & tc & Htr & Hs & Ht & Hc & _).
  exists (s ++ t), tc. rewrite <- app_assoc. split; [exact Htr|].
  destruct (setup_event_quiet _ Hs) as (_ & _ & Hs' & _).
  rewrite existsb_app, Hs', (sending_event_no_write_after _ Ht).
  apply collect_event_quiet in Hc.
  destruct Hc as (_ & _ & _ & Hw & _). auto.
Qed.

(** X5. When the socket refuses the deadline, [Do] returns that error at
    once: the interfaces are not listed, nothing is sent or read, and the
    socket is as it was. *)
Theorem deadline_failure_aborts env c req timeout numSends fuel a e :
  ResolveUDPAddr_result env (Host req) = inr a ->
  SetDeadline_result env = Some e ->
  Do env req timeout numSends fuel c
  = (Returned [] (Some e), c,
     [EvResolveUDPAddr (Host req); EvSetDeadline (clock c + timeout)]).
Proof.
  intros Hres Hdl. now rewrite Do_eq, request_and_send_eq, Hres, Hdl.
Qed.

Lemma deadline_failure_aborts_witness :
  Do no_deadline_env msearch 100 2 5 used_conn
  = (Returned [] (Some (PlainError "use of closed network connection")),
     used_conn,
     [EvResolveUDPAddr "239.255.255.250:1900"; EvSetDeadline 5100]).
Proof.
  apply (deadline_failure_aborts no_deadline_env used_conn msearch 100 2 5
           ssdp_addr (PlainError "use of closed network connection"));
    reflexivity.
Defined.

(** X6. When the interfaces cannot be listed, [Do] returns that error
    with nothing sent and nothing read; the deadline it had set before
    stays on the socket. *)
Theorem interfaces_failure_aborts env c req timeout numSends fuel a e :
  ResolveUDPAddr_result env (Host req) = inr a ->
  SetDeadline_result env = None ->
  Interfaces_result env = inl e ->
  Do env req timeout numSends fuel c
  = (Returned [] (Some e),
     mkConn (clock c) (Some (clock c + timeout)) (multicastIf c)
            (setifs c) (writes c) (reads c),
     [EvResolveUDPAddr (Host req); EvSetDeadline (clock c + timeout);
      EvInterfaces]).
Proof.
  intros Hres Hdl Hifs.
  now rewrite Do_eq, request_and_send_eq, Hres, Hdl, Hifs.
Qed.

Lemma interfaces_failure_aborts_witness :
  Do no_interfaces_env msearch 100 2 5 used_conn
  = (Returned [] (Some (PlainError "route ip+net: netlink")),
     mkConn 5000 (Some 5100) (Some lo) 4 4 7,
     [EvResolveUDPAddr "239.255.255.250:1900"; EvSetDeadline 5100; EvInterfaces]).
Proof.
  apply (interfaces_failure_aborts no_interfaces_env used_conn msearch 100 2 5
           ssdp_addr (PlainError "route ip+net: netlink"));
    reflexivity.
Defined.

Lemma send_round_select_fails env buf dst ifc0 others e :
  forall ifs c,
    filter multicast ifs = ifc0 :: others ->
    SetMulticastInterface_result env (setifs c) ifc0 = Some e ->
    send_round env buf dst ifs c
    = (Returned [] (Some e),
       mkConn (clock c) (deadline c) (multicastIf c) (S (setifs c))
              (writes c) (reads c),
       [EvSetMulticastInterface ifc0]).
Proof.
  induction ifs as [|ifc rest IH]; intros c Hf Hset; [discriminate|].
  cbn [send_round filter] in *. unfold multicast in Hf at 1.
  destruct (Z.land (Flags ifc) FlagMulticast =? 0); cbn [negb] in Hf.
  - now apply IH.
  - injection Hf as -> _.
    unfold bind at 1, conn_SetMulticastInterface at 1. rewrite Hset.
    reflexivity.
Qed.

(** X7. When the first multicast-capable interface of the list cannot be
    selected, a call with at least one round returns that error before
    any write: the selection is its last call, no datagram leaves, no
    read is made, and the interface selected on the socket is the one it
    had. *)
Theorem selection_failure_aborts
        env c req timeout numSends fuel a ifs ifc0 others e :
  ResolveUDPAddr_result env (Host req) = inr a ->
  SetDeadline_result env = None ->
  Interfaces_result env = inr ifs ->
  1 <= numSends ->
  filter multicast ifs = ifc0 :: others ->
  SetMulticastInterface_result env (setifs c) ifc0 = Some e ->
  Do env req timeout numSends fuel c
  = (Returned [] (Some e),
     mkConn (clock c) (Some (clock c + timeout)) (multicastIf c)
            (S (setifs c)) (writes c) (reads c),
     [EvResolveUDPAddr (Host req); EvSetDeadline (clock c + timeout);
      EvInterfaces; EvSetMulticastInterface ifc0]).
Proof.
  intros Hres Hdl Hifs Hk Hf Hset.
  rewrite Do_eq, request_and_send_eq, Hres, Hdl, Hifs. cbv zeta.
  destruct (Z.to_nat numSends) as [|k] eqn:Hn; [lia|].
  cbn [send_rounds]. unfold bind at 1.
  rewrite (send_round_select_fails env (payload req) (Some a) ifc0 others e);
    [reflexivity | exact Hf | exact Hset].
Qed.

Lemma selection_failure_aborts_witness :
  Do no_select_env msearch 100 2 5 used_conn
  = (Returned [] (Some (PlainError "setsockopt: no such device")),
     mkConn 5000 (Some 5100) (Some lo) 5 4 7,
     [EvResolveUDPAddr "239.255.255.250:1900"; EvSetDeadline 5100;
      EvInterfaces; EvSetMulticastInterface eth0]).
Proof.
  apply (selection_failure_aborts no_select_env used_conn msearch 100 2 5
           ssdp_addr [lo; eth0] eth0 [] (PlainError "setsockopt: no such device"));
    try reflexivity; lia.
Defined.

(** ** A host without a multicast-capable interface *)

Lemma send_round_none env buf dst :
  forall ifs c,
    filter multicast ifs = [] ->
    send_round env buf dst ifs c = (Normal tt, c, []).
Proof.
  induction ifs as [|ifc rest IH]; intros c Hf; [reflexivity|].
  cbn [send_round filter] in *. unfold multicast in Hf at 1.
  destruct (Z.land (Flags ifc) FlagMulticast =? 0); cbn [negb] in Hf;
    [now apply IH | discriminate].
Qed.

Lemma send_rounds_none env buf dst ifs :
  filter multicast ifs = [] ->
  forall k c,
  exists c',
    send_rounds env k buf dst ifs c
    = (Normal tt, c', repeat (EvSleep (5 * Millisecond)) k) /\
    deadline c' = deadline c /\ reads c' = reads c.
Proof.
  intros Hf. induction k as [|k IH]; intros c.
  - exists c. repeat split.
  - cbn [send_rounds]. unfold bind at 1. rewrite (send_round_none _ _ _ _ _ Hf).
    unfold bind at 1, time_Sleep at 1.
    match goal with |- context [send_rounds env k buf dst ifs ?c2] =>
      destruct (IH c2) as (c' & Hrun & Hd & Hr) end.
    rewrite Hrun. exists c'. repeat split; auto.
Qed.

(** X8. On a host none of whose interfaces is multicast-capable, [Do]
    selects no interface and sends nothing, and reports no error for it:
    it pauses once per round all the same, then reads until the deadline,
    and returns what it parsed with a nil error. *)
Theorem no_multicast_interface_sends_nothing
        env now req timeout numSends fuel a ifs j m tmp :
  ResolveUDPAddr_result env (Host req) = inr a ->
  SetDeadline_result env = None ->
  Interfaces_result env = inr ifs ->
  filter multicast ifs = [] ->
  forallb survives (reads_from env 0 j) = true ->
  ReadFrom_result env j = inl (NetError m true tmp) ->
  (j < fuel)%nat ->
  trace (run env now req timeout numSends fuel)
  = [EvResolveUDPAddr (Host req); EvSetDeadline (now + timeout); EvInterfaces]
    ++ repeat (EvSleep (5 * Millisecond)) (Z.to_nat numSends)
    ++ flat_map (read_events env req (Some (now + timeout)))
                (reads_from env 0 (S j))
  /\ result (run env now req timeout numSends fuel)
     = Returned (gathered env req (reads_from env 0 j)) None.
Proof.
  intros Hres Hdl Hifs Hf Hsurv Hj Hfuel.
  unfold run, trace, result. rewrite Do_eq, request_and_send_eq, Hres, Hdl, Hifs.
  cbv zeta.
  destruct (send_rounds_none env (payload req) (Some a) ifs Hf (Z.to_nat numSends)
              (set_deadline (conn0 now) (clock (conn0 now) + timeout)))
    as (c1 & Hrun & Hd & Hr).
  rewrite Hrun.
  destruct (collect_run env req j fuel [] c1) as (c2 & Hcol & _).
  - rewrite Hr. intros i Hi. now apply forallb_reads_from with (j := j).
  - rewrite Hr. cbn. now rewrite Hj.
  - exact Hfuel.
  - rewrite Hcol, Hr, Hd. cbn [reads deadline set_deadline conn0 Nat.add fst snd clock].
    rewrite Hj. cbn [loop_end app]. split; reflexivity.
Qed.

Lemma no_multicast_interface_sends_nothing_witness :
  trace (run (quiet_env [lo; tun0] []) 0 msearch 100 2 5)
  = [EvResolveUDPAddr "239.255.255.250:1900"; EvSetDeadline 100; EvInterfaces;
     EvSleep (5 * Millisecond); EvSleep (5 * Millisecond);
     EvReadFrom (Some 100)]
  /\ result (run (quiet_env [lo; tun0] []) 0 msearch 100 2 5) = Returned [] None.
Proof.
  apply (no_multicast_interface_sends_nothing
           (quiet_env [lo; tun0] []) 0 msearch 100 2 5 ssdp_addr [lo; tun0] 0
           "i/o timeout" true);
    try reflexivity; lia.
Defined.

(** ** The read buffer *)

Section Truncation.
Variable env : Env.
Variables f1 f2 : nat -> error + string.

(** The send phase never looks at what is read. *)
Lemma send_rounds_with_reads buf dst ifs k c :
  send_rounds (with_reads env f1) k buf dst ifs c
  = send_rounds (with_reads env f2) k buf dst ifs c.
Proof. reflexivity. Qed.

Hypothesis same_cut : forall i, cut 2048 (f1 i) = cut 2048 (f2 i).

Lemma collect_with_reads req :
  forall fuel acc c,
    collect (with_reads env f1) fuel req acc c
    = collect (with_reads env f2) fuel req acc c.
Proof.
  induction fuel as [|fuel IH]; intros acc c; [reflexivity|].
  cbn [collect].
  unfold bind, conn_ReadFrom, time_Sleep, http_ReadResponse, log_Print.
  cbn [ReadFrom_result ReadResponse_result with_reads].
  pose proof (same_cut (reads c)) as Hi.
  destruct (f1 (reads c)) as [e1|d1], (f2 (reads c)) as [e2|d2];
    cbn [cut] in Hi; try discriminate.
  - injection Hi as <-.
    destruct e1 as [m [|] [|]|m]; try reflexivity. now rewrite IH.
  - injection Hi as Hi. rewrite Hi.
    destruct (ReadResponse_result env (substring 0 2048 d2) req);
      now rewrite IH.
Qed.
End Truncation.

(** X9. Of a datagram [Do] sees its first 2048 bytes and nothing else:
    two worlds whose datagrams agree on their first 2048 bytes, and that
    answer the other calls alike, give the same run, with the same calls,
    the same responses and the same error. *)
Theorem bytes_beyond_the_buffer_ignored env f1 f2 c req timeout numSends fuel :
  (forall i, cut 2048 (f1 i) = cut 2048 (f2 i)) ->
  Do (with_reads env f1) req timeout numSends fuel c
  = Do (with_reads env f2) req timeout numSends fuel c.
Proof.
  intros Hcut. rewrite !Do_eq, !request_and_send_eq.
  cbn [ResolveUDPAddr_result SetDeadline_result Interfaces_result with_reads].
  destruct (ResolveUDPAddr_result env (Host req)) as [e|a]; [reflexivity|].
  destruct (SetDeadline_result env) as [e|]; [reflexivity|].
  destruct (Interfaces_result env) as [e|ifs]; [reflexivity|].
  cbv zeta. rewrite (send_rounds_with_reads env f1 f2).
  destruct (send_rounds (with_reads env f2) (Z.to_nat numSends) (payload req)
              (Some a) ifs (set_deadline c (clock c + timeout))) as [[o c1] t].
  destruct o; try reflexivity.
  now rewrite (collect_with_reads env f1 f2 Hcut).
Qed.

Lemma bytes_beyond_the_buffer_ignored_witness :
  Do (with_reads (quiet_env [eth0] []) (long_dgram "TTP/1.1 200 OK"))
     msearch 100 1 5 (conn0 0)
  = Do (with_reads (quiet_env [eth0] []) (long_dgram "")) msearch 100 1 5 (conn0 0).
Proof.
  apply (bytes_beyond_the_buffer_ignored (quiet_env [eth0] [])
           (long_dgram "TTP/1.1 200 OK") (long_dgram "") (conn0 0) msearch 100 1 5).
  intros [|i]; vm_compute; reflexivity.
Defined.

(** ** The responses *)

Lemma gathered_all_parse env req :
  forall ds rs,
    map (fun d => ReadResponse_result env (substring 0 2048 d) req) ds
    = map inr rs ->
    gathered env req (map inr ds) = rs.
Proof.
  induction ds as [|d ds IH]; intros [|r rs] H; try discriminate;
    [reflexivity|].
  cbn [map] in H. injection H as Hd Hds.
  cbn [map gathered flat_map]. rewrite Hd. cbn [app].
  f_equal. now apply IH.
Qed.

Lemma forallb_survives_datagrams (ds : list string) :
  forallb survives (map inr ds) = true.
Proof. induction ds as [|d ds IH]; [reflexivity | exact IH]. Qed.

(** X10. When the datagrams read before the timeout all parse, [Do]
    returns one response per datagram, in the order the datagrams were
    read: a datagram that arrives twice gives two responses, and nothing
    is sorted or dropped. *)
Theorem responses_in_arrival_order env now req timeout numSends fuel ds rs m tmp :
  sending_completes env now req timeout numSends = true ->
  reads_from env 0 (List.length ds) = map inr ds ->
  map (fun d => ReadResponse_result env (substring 0 2048 d) req) ds
  = map inr rs ->
  ReadFrom_result env (List.length ds) = inl (NetError m true tmp) ->
  (List.length ds < fuel)%nat ->
  result (run env now req timeout numSends fuel) = Returned rs None
  /\ List.length rs = List.length ds.
Proof.
  intros Hsend Hreads Hparse Hj Hfuel.
  assert (Hsurv : forallb survives (reads_from env 0 (List.length ds)) = true)
    by (rewrite Hreads; apply forallb_survives_datagrams).
  destruct (Do_run env now req timeout numSends fuel (List.length ds) Hsend)
    as (ifs & t & _ & _ & _ & _ & _ & Hres);
    [now apply forallb_reads_from | now rewrite Hj | exact Hfuel |].
  rewrite Hres, Hj, Hreads, (gathered_all_parse env req ds rs Hparse).
  split; [reflexivity|].
  apply (f_equal (@List.length _)) in Hparse.
  rewrite !length_map in Hparse. now symmetry.
Qed.

Lemma responses_in_arrival_order_witness :
  result (run (echo_env [eth0] [inr "a"; inr "b"; inr "a"]) 0 msearch 100 1 9)%string
  = Returned [mkResponse "a" 200 "HTTP/1.1" [] "";
              mkResponse "b" 200 "HTTP/1.1" [] "";
              mkResponse "a" 200 "HTTP/1.1" [] ""]%string None
  /\ List.length [mkResponse "a" 200 "HTTP/1.1" [] "";
                  mkResponse "b" 200 "HTTP/1.1" [] "";
                  mkResponse "a" 200 "HTTP/1.1" [] ""]%string
     = List.length ["a"; "b"; "a"]%string.
Proof.
  apply (responses_in_arrival_order
           (echo_env [eth0] [inr "a"; inr "b"; inr "a"]%string) 0 msearch 100 1 9
           ["a"; "b"; "a"]%string
           [mkResponse "a" 200 "HTTP/1.1" [] "";
            mkResponse "b" 200 "HTTP/1.1" [] "";
            mkResponse "a" 200 "HTTP/1.1" [] ""]%string
           "i/o timeout" true);
    try reflexivity. cbn. lia.
Defined.

(** ** The time spent asleep *)

Lemma slept_app t1 t2 : slept (t1 ++ t2) = slept t1 + slept t2.
Proof.
  induction t1 as [|ev t1 IH]; [reflexivity|].
  cbn [app]. unfold slept in *. cbn [fold_right]. destruct ev; lia.
Qed.

Lemma slept_send_events tr :
  forallb send_event tr = true -> slept tr = 0.
Proof.
  induction tr as [|ev tr IH]; [reflexivity|].
  cbn [forallb]. intros H. apply andb_true_iff in H as [Hev Htr].
  specialize (IH Htr). unfold slept in *.
  destruct ev; cbn in Hev; try discriminate; exact IH.
Qed.

Lemma slept_paused_rounds buf ifs k tr :
  paused_rounds buf ifs k tr ->
  slept tr = Z.of_nat k * (5 * Millisecond).
Proof.
  revert tr; induction k as [|k IH]; intros tr; cbn [paused_rounds].
  - intros ->. reflexivity.
  - intros (round & rest & -> & Hev & _ & Hrest).
    rewrite slept_app, (slept_send_events _ Hev).
    change (slept (pause :: rest)) with (5 * Millisecond + slept rest).
    rewrite (IH rest Hrest). lia.
Qed.

Lemma slept_read_events env req dl (l : list (error + string)) :
  slept (flat_map (read_events env req dl) l)
  = Z.of_nat (List.length (filter temporary_error l)) * (10 * Millisecond).
Proof.
  induction l as [|r l IH]; [reflexivity|].
  cbn [flat_map filter]. rewrite slept_app, IH. unfold read_events.
  destruct r as [[m [|] [|]|m]|d]; cbn [temporary_error List.length];
    try (change (slept [EvReadFrom dl]) with 0; lia).
  - change (slept [EvReadFrom dl; EvSleep (10 * Millisecond)])
      with (10 * Millisecond + 0). lia.
  - destruct (ReadResponse_result env (substring 0 2048 d) req);
      [change (slept [EvReadFrom dl; EvLogPrint _]) with 0
      | change (slept [EvReadFrom dl]) with 0]; lia.
Qed.

(** X11. In a call whose send phase runs to its end and whose read loop
    ends at read number [j], the time [Do] spends in [time.Sleep] is 5ms
    for every round plus 10ms for every temporary error read: the pauses
    are spent out of the time the deadline leaves for the answers. *)
Theorem time_spent_asleep env now req timeout numSends fuel j :
  sending_completes env now req timeout numSends = true ->
  forallb survives (reads_from env 0 j) = true ->
  survives (ReadFrom_result env j) = false ->
  (j < fuel)%nat ->
  slept (trace (run env now req timeout numSends fuel))
  = Z.max 0 numSends * (5 * Millisecond)
    + Z.of_nat (List.length (filter temporary_error (reads_from env 0 j)))
      * (10 * Millisecond).
Proof.
  intros Hsend Hsurv Hend Hfuel.
  destruct (Do_run env now req timeout numSends fuel j Hsend)
    as (ifs & t & _ & _ & _ & Hshape & Htr & _);
    [now apply forallb_reads_from | exact Hend | exact Hfuel |].
  rewrite Htr, !slept_app, (slept_paused_rounds _ _ _ _ Hshape),
    slept_read_events.
  replace (S j) with (j + 1)%nat by lia.
  rewrite reads_from_app, filter_app. cbn [Nat.add].
  unfold reads_from at 2. cbn [seq map filter].
  assert (Hlast : temporary_error (ReadFrom_result env j) = false).
  { destruct (ReadFrom_result env j) as [[m [|] [|]|m]|d];
      cbn in Hend; try discriminate; reflexivity. }
  rewrite Hlast, app_nil_r.
  change (slept (setup_events req (now + timeout))) with 0. lia.
Qed.

Lemma time_spent_asleep_witness :
  slept (trace (run refused_env 0 msearch 100 1 9)) = 15 * Millisecond.
Proof.
  apply (time_spent_asleep refused_env 0 msearch 100 1 9 3);
    try reflexivity. lia.
Defined.

(** ** The end of the message *)

Lemma header_lines_end (l : list (string * string)) :
  l <> [] ->
  exists p,
    join (map (fun nv => fst nv ++ ": " ++ snd nv ++ CRLF)%string l)
    = (p ++ CRLF)%string.
Proof.
  induction l as [|nv l IH]; [congruence|]. intros _.
  destruct l as [|nv' l].
  - exists (fst nv ++ ": " ++ snd nv)%string. unfold join. cbn [map fold_right].
    now rewrite append_empty_r, !append_assoc.
  - destruct IH as [p Hp]; [discriminate|].
    exists ((fst nv ++ ": " ++ snd nv ++ CRLF) ++ p)%string.
    change (join (map (fun nv0 => fst nv0 ++ ": " ++ snd nv0 ++ CRLF)%string
                      (nv :: nv' :: l)))
      with ((fst nv ++ ": " ++ snd nv ++ CRLF)
            ++ join (map (fun nv0 => fst nv0 ++ ": " ++ snd nv0 ++ CRLF)%string
                         (nv' :: l)))%string.
    now rewrite Hp, !append_assoc.
Qed.

(** X12. Whatever the method, the target and the headers, the message
    [Do] sends ends with an empty line, the two bytes [\r\n] twice: the
    receiver can tell where the headers end, with or without headers. *)
Theorem request_ends_with_empty_line (req : Request) :
  exists pre, fst (build_request req) = (pre ++ CRLF ++ CRLF)%string.
Proof.
  rewrite build_request_eq. cbn [fst]. unfold wire_message.
  destruct (header_entries (Header req)) as [|nv l] eqn:Hh.
  - exists ((if String.eqb (Method req) "" then "GET" else Method req)
            ++ " " ++ RequestURI req ++ " HTTP/1.1")%string.
    unfold join. cbn [map fold_right]. now rewrite !append_assoc.
  - destruct (header_lines_end (nv :: l)) as [p Hp]; [discriminate|].
    rewrite Hp.
    exists ((if String.eqb (Method req) "" then "GET" else Method req)
            ++ " " ++ RequestURI req ++ " HTTP/1.1" ++ CRLF ++ p)%string.
    now rewrite !append_assoc.
Qed.

(** ** The ways out of the read loop *)

Lemma collect_goes_on env req :
  (forall i, survives (ReadFrom_result env i) = true) ->
  forall fuel acc c,
    result (collect env fuel req acc c) = OutOfFuel.
Proof.
  intros Hall. induction fuel as [|fuel IH]; intros acc c; [reflexivity|].
  cbn [collect]. unfold result in *.
  unfold bind at 1, conn_ReadFrom at 1.
  pose proof (Hall (reads c)) as Hs.
  destruct (ReadFrom_result env (reads c)) as [e|d].
  - destruct e as [m [|] [|]|m]; cbn in Hs; try discriminate.
    unfold bind at 1, time_Sleep at 1.
    match goal with |- context [collect env fuel req acc ?c2] =>
      specialize (IH acc c2); destruct (collect env fuel req acc c2)
        as [[o c'] tr] end.
    cbn in IH. now subst o.
  - unfold bind at 1, http_ReadResponse at 1.
    destruct (ReadResponse_result env (substring 0 2048 d) req) as [e|r].
    + unfold bind at 1, log_Print at 1.
      match goal with |- context [collect env fuel req acc ?c2] =>
        specialize (IH acc c2); destruct (collect env fuel req acc c2)
          as [[o c'] tr] end.
      cbn in IH. now subst o.
    + match goal with |- context [collect env fuel req ?acc2 ?c2] =>
        specialize (IH acc2 c2); destruct (collect env fuel req acc2 c2)
          as [[o c'] tr] end.
      cbn in IH. now subst o.
Qed.

(** X13. The read loop has no way out of its own: as long as every read
    gives a datagram or a temporary error, [Do] goes on reading, however
    many reads that takes.  Only a read that times out or fails for good
    ends the call, so it is the deadline on the socket that ends it. *)
Theorem loop_ends_only_on_a_failed_read env now req timeout numSends :
  sending_completes env now req timeout numSends = true ->
  (forall i, survives (ReadFrom_result env i) = true) ->
  forall fuel, result (run env now req timeout numSends fuel) = OutOfFuel.
Proof.
  intros Hsend Hall fuel.
  destruct (sending_completes_inv _ _ _ _ _ Hsend)
    as (a & ifs & c1 & t & _ & _ & _ & Hrun & _).
  pose proof (collect_goes_on env req Hall fuel [] c1) as Hc.
  unfold run, result in *. rewrite Do_eq, Hrun.
  destruct (collect env fuel req [] c1) as [[o c2] tc].
  cbn in Hc. now subst o.
Qed.

Lemma loop_ends_only_on_a_failed_read_witness :
  result (run busy_env 0 msearch 100 1 50) = OutOfFuel.
Proof.
  apply (loop_ends_only_on_a_failed_read busy_env 0 msearch 100 1);
    [reflexivity | intros i; reflexivity].
Defined.

(** ** The errors [Do] returns *)

Section Errors.
Variable env : Env.
Variable req : Request.



End Errors.



(** ** A nil error *)

(** X15. [Do] returns a nil error only after the whole send phase: then
    every round went over every multicast-capable interface of the list
    and no send attempt failed or fell short.  A call that sent to only
    some of them never reports success. *)
Theorem nil_error_means_all_sent env now req timeout numSends fuel rs ifs :
  result (run env now req timeout numSends fuel) = Returned rs None ->
  Interfaces_result env = inr ifs ->
  sends (trace (run env now req timeout numSends fuel))
  = List.concat (repeat (map (fun ifc => (Some ifc, fst (build_request req)))
                             (filter multicast ifs))
                        (Z.to_nat numSends))
  /\ existsb failed_write (trace (run env now req timeout numSends fuel))
     = false.
Proof.
  intros Hret Hifs. apply returned_nil_sending_completes in Hret.
  destruct (Do_trace_split _ _ _ _ _ Hret fuel)
    as (ifs' & t & tc & Hifs' & Hev & Hf & Hs & Hshape & Hc & Htr).
  rewrite Hifs in Hifs'. injection Hifs' as <-.
  apply collect_event_quiet in Hc. destruct Hc as (Hclean & Hnone & _).
  rewrite Htr, !sends_app, Hnone, app_nil_r, !existsb_app, Hf, Hclean.
  rewrite build_request_eq. cbn [fst]. fold (payload req).
  rewrite (paused_rounds_sends _ _ _ _ Hshape). split; reflexivity.
Qed.

Lemma nil_error_means_all_sent_witness :
  sends (trace (run junk_env 0 msearch 100 2 9))
  = [(Some eth0, fst (build_request msearch));
     (Some eth0, fst (build_request msearch))]
  /\ existsb failed_write (trace (run junk_env 0 msearch 100 2 9)) = false.
Proof.
  apply (nil_error_means_all_sent junk_env 0 msearch 100 2 9
           [ok_response; ok_response] [eth0]);
    reflexivity.
Defined.
